(** * Texture streamer: a model of [TextureStreamer] and its frame quantisation

    The Blender add-on polls an image, turns its float pixels into bytes and
    pipes them to an ffmpeg child process.  This file embeds the class
    [TextureStreamer] ([start], [stop], [stream], [status_text]) as pure
    functions over an explicit world: the object's fields, the table of
    child processes that were spawned, and a trace of the outside calls each
    operation makes.  What the outside world answers during one call (the
    image that [bpy.data.images.get] returns, [time.time()], whether
    [Popen] or [write] raises) is an [Env] record.

    Floats are IEEE-754 values of [SpecFloat]: binary32 for the pixel
    array ([np.float32]) and binary64 for Python's [float]. *)

From Stdlib Require Import ZArith List String Bool Lia.
From Stdlib Require Import QArith Qround Qabs.
From Stdlib Require Import SpecFloat DecimalString DecimalZ DecimalPos.
Import ListNotations.

Local Open Scope Z_scope.

(** ** Floating-point formats *)

Definition float32 := spec_float.
Definition float64 := spec_float.

Module F32.
Definition prec : Z := 24.
Definition emax : Z := 128.
Definition valid (x : float32) : bool := valid_binary prec emax x.
Definition of_Z (z : Z) : float32 := binary_normalize prec emax z 0 false.
Definition mul (x y : float32) : float32 := SFmul prec emax x y.
End F32.

Module F64.
Definition prec : Z := 53.
Definition emax : Z := 1024.
Definition valid (x : float64) : bool := valid_binary prec emax x.
Definition of_Z (z : Z) : float64 := binary_normalize prec emax z 0 false.
Definition sub (x y : float64) : float64 := SFsub prec emax x y.
Definition div (x y : float64) : float64 := SFdiv prec emax x y.
(** Python's [x > y] on floats. *)
Definition gtb (x y : float64) : bool := SFltb y x.
End F64.

Definition is_nan (x : spec_float) : bool :=
  match x with S754_nan => true | _ => false end.

(** ** Module constants *)

Definition IMAGE_NAME : string := "PaintTexture".
Definition STREAM_FPS : Z := 15.
Definition UDP_URL : string := "udp://127.0.0.1:1234?pkt_size=1316".
Definition FFMPEG_BIN : string := "ffmpeg".
Definition KEEPALIVE_SECONDS : float64 := F64.of_Z 1.

(** [str(n)] for a Python int. *)
Definition str (n : Z) : string := NilZero.string_of_int (Z.to_int n).

(** ** numpy: [(px * 255.0).clip(0, 255).astype(np.uint8)] *)

(** numpy's float [maximum]/[minimum] as [clip] uses them: a NaN first
    operand is returned, otherwise the C comparison decides. *)
Definition np_max (a b : float32) : float32 :=
  if is_nan a then a else if SFltb b a then a else b.

Definition np_min (a b : float32) : float32 :=
  if is_nan a then a else if SFltb a b then a else b.

Definition np_clip (x lo hi : float32) : float32 :=
  np_min (np_max x lo) hi.

(** The integer part of a float, rounding toward zero: the mantissa shifted
    by the exponent ([Z.shiftl] by a negative amount shifts right). *)
Definition trunc (x : spec_float) : Z :=
  match x with
  | S754_finite s m e => cond_Zopp s (Z.shiftl (Zpos m) e)
  | _ => 0
  end.

(** ** Real values *)

(** The rational number a finite float stands for: [(-1)^s * m * 2^e]. *)
Definition SF2Q (x : spec_float) : Q :=
  match x with
  | S754_finite s m e =>
      if e <? 0 then cond_Zopp s (Zpos m) # (2 ^ Z.to_pos (- e))
      else inject_Z (cond_Zopp s (Zpos m * 2 ^ e))
  | _ => 0
  end.

Definition clamp (lo hi q : Q) : Q :=
  if Qle_bool q lo then lo else if Qle_bool hi q then hi else q.

(** A float clamped to the interval from 0 to 255, the infinities
    included. *)
Definition clipped_value (x : float32) : Q :=
  match x with
  | S754_infinity s => if s then 0 else 255
  | _ => clamp 0 255 (SF2Q x)
  end.

(** [b] is an integer nearest to [q], whichever way ties go. *)
Definition rounds_to (q : Q) (b : Z) : Prop :=
  (Qabs (q - inject_Z b) <= 1 # 2)%Q.

(** The quantisation rule in the words of the design notes:
    [byte = round(clamp(sample, 0, 1) * 255)]. *)
Definition rounded_quantization (s : float32) (b : Z) : Prop :=
  rounds_to (clamp 0 1 (SF2Q s) * 255) b.

Section Streamer.

(** The C conversion of a NaN or an infinity to an unsigned char is
    undefined; the byte numpy then stores is left to the platform. *)
Variable cast_undef : Z.

Definition astype_uint8 (x : float32) : Z :=
  match x with
  | S754_nan | S754_infinity _ => cast_undef
  | _ => trunc x mod 256
  end.

Definition quantize (s : float32) : Z :=
  astype_uint8 (np_clip (F32.mul s (F32.of_Z 255)) (F32.of_Z 0) (F32.of_Z 255)).

Definition to_u8 (px : list float32) : list Z := map quantize px.

(** ** The world *)

(** [bpy.types.Image], as far as the streamer looks at it. *)
Record Image := {
  size : Z * Z;
  is_dirty : bool;
  pixels : list float32
}.

(** The write end of the child's standard input.  [data] is what
    [proc.stdin.write] has accepted; the code never flushes, so these bytes
    may still sit in the buffer of the file object. *)
Record Pipe := {
  closed : bool;
  data : list Z
}.

(** What is known of a child: [Alive], it runs and nobody signalled it;
    [Terminated], [Popen.terminate()] went through, so SIGTERM was sent,
    which says nothing on whether the child has died yet; [Exited], it has
    exited, with this return code. *)
Inductive ProcStatus :=
| Alive
| Exited (code : Z)
| Terminated.

(** A [subprocess.Popen] object. *)
Record Process := {
  argv : list string;
  status : ProcStatus;
  stdin : option Pipe
}.

(** [Popen.poll()]: [None] as long as the child has not exited, signalled
    or not, and its return code after. *)
Definition poll (p : Process) : option Z :=
  match status p with
  | Alive => None
  | Exited c => Some c
  | Terminated => None
  end.

(** The fields of a [TextureStreamer]. [proc] holds the index of the
    [Popen] object in the world's process table. *)
Record TextureStreamer := {
  proc : option nat;
  running : bool;
  last_error : string;
  last_send_time : float64;
  frames_sent : Z
}.

Record World := {
  self : TextureStreamer;
  procs : list Process
}.

(** What the outside answers during one operation. *)
Record Env := {
  e_image : option Image;          (* bpy.data.images.get(IMAGE_NAME) *)
  e_which : bool;                  (* shutil.which("ffmpeg") is not None *)
  e_popen : option string;         (* Popen raises, with this message *)
  e_now : float64;                 (* time.time() *)
  e_write : option (nat * string); (* write raises after so many bytes *)
  e_terminate_raises : bool        (* terminate raises *)
}.

(** Calls that leave the object, in order. *)
Inductive Effect :=
| EPrint (msg : string)
| EGetImage
| EWhich
| EPopen (cmd : list string)
| ERegisterTimer
| EPoll (pid : nat)
| ETime
| EReadPixels
| EWrite (pid : nat) (bytes : list Z)
| EClose (pid : nat)
| ETerminate (pid : nat).

Definition init_self : TextureStreamer :=
  {| proc := None; running := false; last_error := EmptyString;
     last_send_time := F64.of_Z 0; frames_sent := 0 |}.

Definition init_world : World := {| self := init_self; procs := [] |}.

(** ** Field updates *)

Definition set_proc (v : option nat) (s : TextureStreamer) : TextureStreamer :=
  {| proc := v; running := running s; last_error := last_error s;
     last_send_time := last_send_time s; frames_sent := frames_sent s |}.

Definition set_running (v : bool) (s : TextureStreamer) : TextureStreamer :=
  {| proc := proc s; running := v; last_error := last_error s;
     last_send_time := last_send_time s; frames_sent := frames_sent s |}.

Definition set_last_error (v : string) (s : TextureStreamer) : TextureStreamer :=
  {| proc := proc s; running := running s; last_error := v;
     last_send_time := last_send_time s; frames_sent := frames_sent s |}.

Definition set_last_send_time (v : float64) (s : TextureStreamer) : TextureStreamer :=
  {| proc := proc s; running := running s; last_error := last_error s;
     last_send_time := v; frames_sent := frames_sent s |}.

Definition set_frames_sent (v : Z) (s : TextureStreamer) : TextureStreamer :=
  {| proc := proc s; running := running s; last_error := last_error s;
     last_send_time := last_send_time s; frames_sent := v |}.

Definition with_self (f : TextureStreamer -> TextureStreamer) (w : World) : World :=
  {| self := f (self w); procs := procs w |}.

Fixpoint update_nth {A : Type} (n : nat) (f : A -> A) (l : list A) : list A :=
  match l, n with
  | [], _ => []
  | x :: t, O => f x :: t
  | x :: t, S k => x :: update_nth k f t
  end.

Definition with_proc (pid : nat) (f : Process -> Process) (w : World) : World :=
  {| self := self w; procs := update_nth pid f (procs w) |}.

(** An operation's result: the new world and the calls it made. *)
Definition Outcome : Type := World * list Effect.

Definition and_then (r : Outcome) (k : World -> Outcome) : Outcome :=
  let '(w1, t1) := r in
  let '(w2, t2) := k w1 in
  (w2, t1 ++ t2).

(** ** [_set_error] *)

Definition _set_error (msg : string) (w : World) : Outcome :=
  (with_self (set_last_error msg) w,
   [EPrint ("[TextureStreamer] " ++ msg)%string]).

(** ** [stop] *)

Definition close_pipe (p : Process) : Process :=
  {| argv := argv p; status := status p;
     stdin := option_map (fun q => {| closed := true; data := data q |}) (stdin p) |}.

(** [Popen.terminate()] sends SIGTERM to a child that has not exited and
    returns at once, without waiting for the child to die; when the call
    raises, nothing was signalled. *)
Definition terminate (raises : bool) (p : Process) : Process :=
  if raises then p
  else match status p with
       | Alive => {| argv := argv p; status := Terminated; stdin := stdin p |}
       | _ => p
       end.

Definition has_stdin (w : World) (pid : nat) : bool :=
  match nth_error (procs w) pid with
  | Some p => match stdin p with Some _ => true | None => false end
  | None => false
  end.

Definition stop (env : Env) (w : World) : Outcome :=
  if negb (running (self w)) then (w, [])
  else
    let w1 := with_self (set_running false) w in
    match proc (self w1) with
    | Some pid =>
        (* both [try] blocks swallow what close and terminate raise; a
           close that raises has closed the pipe all the same *)
        let t_close := if has_stdin w1 pid then [EClose pid] else [] in
        let w2 := with_proc pid close_pipe w1 in
        let w3 := with_proc pid (terminate (e_terminate_raises env)) w2 in
        (with_self (set_proc None) w3,
         t_close ++ [ETerminate pid; EPrint "Streaming stopped"%string])
    | None => (w1, [EPrint "Streaming stopped"%string])
    end.

(** ** [start] *)

Definition ffmpeg_cmd (W H : Z) : list string :=
  [FFMPEG_BIN;
   "-loglevel"; "warning";
   "-f"; "rawvideo";
   "-pix_fmt"; "rgba";
   "-s"; str W ++ "x" ++ str H;
   "-r"; str STREAM_FPS;
   "-i"; "-";
   "-an";
   "-c:v"; "libx264";
   "-preset"; "ultrafast";
   "-tune"; "zerolatency";
   "-pix_fmt"; "yuv420p";
   "-g"; str STREAM_FPS;
   "-keyint_min"; str STREAM_FPS;
   "-sc_threshold"; "0";
   "-f"; "mpegts";
   "-mpegts_flags"; "+resend_headers";
   UDP_URL]%string.

(** [subprocess.Popen(cmd, stdin=subprocess.PIPE)]: a new entry of the
    process table, running, with an open and empty pipe. *)
Definition popen (cmd : list string) : Process :=
  {| argv := cmd; status := Alive;
     stdin := Some {| closed := false; data := [] |} |}.

Definition start (env : Env) (w : World) : Outcome :=
  if running (self w) then (w, [])
  else
    let w1 := with_self (fun s => set_last_send_time (F64.of_Z 0)
                                    (set_frames_sent 0
                                       (set_last_error EmptyString s))) w in
    match e_image env with
    | None =>
        and_then (w1, [EGetImage])
                 (_set_error ("Image not found: " ++ IMAGE_NAME)%string)
    | Some img =>
        let '(W, H) := size img in
        if (W =? 0) || (H =? 0) then
          and_then (w1, [EGetImage])
                   (_set_error ("Invalid image size: " ++ str W ++ "x" ++ str H)%string)
        else if (FFMPEG_BIN =? "ffmpeg")%string && negb (e_which env) then
          and_then (w1, [EGetImage; EWhich])
                   (_set_error "ffmpeg not found in PATH. Set FFMPEG_BIN to an absolute path, e.g. /usr/bin/ffmpeg"%string)
        else
          let t0 := if (FFMPEG_BIN =? "ffmpeg")%string
                    then [EGetImage; EWhich] else [EGetImage] in
          let cmd := ffmpeg_cmd W H in
          match e_popen env with
          | Some e =>
              and_then (with_self (set_proc None) w1, t0 ++ [EPopen cmd])
                       (_set_error ("Failed to start ffmpeg: " ++ e)%string)
          | None =>
              let pid := List.length (procs w1) in
              ({| self := set_running true (set_proc (Some pid) (self w1));
                  procs := procs w1 ++ [popen cmd] |},
               t0 ++ [EPopen cmd; ERegisterTimer; EPrint "Streaming started"%string])
          end
    end.

(** ** [stream], the timer callback *)

(** [1.0 / STREAM_FPS] *)
Definition period : float64 := F64.div (F64.of_Z 1) (F64.of_Z STREAM_FPS).

Definition should_send (img : Image) (now last : float64) : bool :=
  is_dirty img || F64.gtb (F64.sub now last) KEEPALIVE_SECONDS.

Definition poll_proc (w : World) (pid : nat) : option Z :=
  match nth_error (procs w) pid with
  | Some p => poll p
  | None => None
  end.

(** [self.proc and (self.proc.poll() is not None)] *)
Definition proc_exited (w : World) : bool :=
  match proc (self w) with
  | Some pid => match poll_proc w pid with Some _ => true | None => false end
  | None => false
  end.

(** Bytes that reach the pipe. *)
Definition feed (bytes : list Z) (p : Process) : Process :=
  {| argv := argv p; status := status p;
     stdin := option_map (fun q => {| closed := closed q; data := data q ++ bytes |})
                         (stdin p) |}.

(** The error exits of [stream]: [_set_error], [stop], [return None]. *)
Definition fail_and_stop (env : Env) (pre : list Effect) (msg : string) (w : World)
  : Outcome * option float64 :=
  (and_then (and_then (w, pre) (_set_error msg)) (stop env), None).

Definition stream (env : Env) (w : World) : Outcome * option float64 :=
  if negb (running (self w)) then ((w, []), None)
  else
    let t_poll := match proc (self w) with Some pid => [EPoll pid] | None => [] end in
    if proc_exited w then
      fail_and_stop env t_poll "ffmpeg exited unexpectedly." w
    else
      match e_image env with
      | None =>
          fail_and_stop env (t_poll ++ [EGetImage])
                        ("Image missing: " ++ IMAGE_NAME)%string w
      | Some img =>
          let now := e_now env in
          let t1 := t_poll ++ [EGetImage; ETime] in
          if negb (should_send img now (last_send_time (self w))) then
            ((w, t1), Some period)
          else
            let u8 := to_u8 (pixels img) in
            let t2 := t1 ++ [EReadPixels] in
            match proc (self w) with
            | None => fail_and_stop env t2 "ffmpeg process not available." w
            | Some pid =>
                if negb (has_stdin w pid) then
                  fail_and_stop env t2 "ffmpeg process not available." w
                else
                  match e_write env with
                  | Some (k, e) =>
                      fail_and_stop env (t2 ++ [EWrite pid u8])
                                    ("Write failed: " ++ e)%string
                                    (with_proc pid (feed (firstn k u8)) w)
                  | None =>
                      ((with_self (fun s => set_frames_sent (frames_sent s + 1)
                                              (set_last_send_time now s))
                                  (with_proc pid (feed u8) w),
                        t2 ++ [EWrite pid u8]),
                       Some period)
                  end
            end
      end.

(** ** [status_text] *)

Definition status_text (s : TextureStreamer) : string :=
  match last_error s with
  | EmptyString => if running s then "Streaming" else "Stopped"
  | _ => "Error"
  end.

(** ** Runs *)

(** A child that has not exited may do so at any time between two calls:
    by itself, or when the signal that [terminate] sent takes effect. *)
Definition child_exit (code : Z) (p : Process) : Process :=
  match status p with
  | Exited _ => p
  | _ => {| argv := argv p; status := Exited code; stdin := stdin p |}
  end.

(** ** [stream] in two parts, and a child that exits in between *)

(** [stream] up to its [try] block, lines 110 to 135: either the tick is
    over, with its outcome, or the frame is converted and about to be
    written, with the calls made so far.  The world is not changed on the
    way. *)
Definition stream_gate (env : Env) (w : World)
  : (Outcome * option float64) + (list Effect * list Z) :=
  if negb (running (self w)) then inl ((w, []), None)
  else
    let t_poll := match proc (self w) with Some pid => [EPoll pid] | None => [] end in
    if proc_exited w then
      inl (fail_and_stop env t_poll "ffmpeg exited unexpectedly." w)
    else
      match e_image env with
      | None =>
          inl (fail_and_stop env (t_poll ++ [EGetImage])
                             ("Image missing: " ++ IMAGE_NAME)%string w)
      | Some img =>
          let t1 := t_poll ++ [EGetImage; ETime] in
          if negb (should_send img (e_now env) (last_send_time (self w))) then
            inl ((w, t1), Some period)
          else
            inr (t1 ++ [EReadPixels], to_u8 (pixels img))
      end.

(** The [try] block of [stream], lines 137 to 150.  Its only test, line
    138, looks at the handle and its pipe, not at whether the child
    runs. *)
Definition stream_write (env : Env) (t2 : list Effect) (u8 : list Z) (w : World)
  : Outcome * option float64 :=
  match proc (self w) with
  | None => fail_and_stop env t2 "ffmpeg process not available." w
  | Some pid =>
      if negb (has_stdin w pid) then
        fail_and_stop env t2 "ffmpeg process not available." w
      else
        match e_write env with
        | Some (k, e) =>
            fail_and_stop env (t2 ++ [EWrite pid u8])
                          ("Write failed: " ++ e)%string
                          (with_proc pid (feed (firstn k u8)) w)
        | None =>
            ((with_self (fun s => set_frames_sent (frames_sent s + 1)
                                    (set_last_send_time (e_now env) s))
                        (with_proc pid (feed u8) w),
              t2 ++ [EWrite pid u8]),
             Some period)
        end
  end.

(** A tick during which the child the streamer holds exits by itself after
    the poll of line 113 and before the write of line 142, while the pixels
    are converted. *)
Definition stream_child_exits (code : Z) (env : Env) (w : World)
  : Outcome * option float64 :=
  match stream_gate env w with
  | inl r => r
  | inr (t2, u8) =>
      stream_write env t2 u8
        match proc (self w) with
        | Some pid => with_proc pid (child_exit code) w
        | None => w
        end
  end.

Inductive Event :=
| Start (env : Env)
| Stop (env : Env)
| Tick (env : Env)
| ChildExit (pid : nat) (code : Z).

Definition step (ev : Event) (w : World) : World :=
  match ev with
  | Start env => fst (start env w)
  | Stop env => fst (stop env w)
  | Tick env => fst (fst (stream env w))
  | ChildExit pid code => with_proc pid (child_exit code) w
  end.

(** Worlds that a run from [init_world] reaches, all of whose events
    satisfy [P]. *)
Inductive reachable (P : Event -> Prop) : World -> Prop :=
| reach_init : reachable P init_world
| reach_step : forall w ev, reachable P w -> P ev -> reachable P (step ev w).

Definition any_event (ev : Event) : Prop := True.

(** The process object the streamer holds, if any. *)
Definition current_proc (w : World) : option Process :=
  match proc (self w) with
  | Some pid => nth_error (procs w) pid
  | None => None
  end.

Definition sent (tr : list Effect) : bool :=
  existsb (fun e => match e with EWrite _ _ => true | _ => false end) tr.

Definition read_pixels (tr : list Effect) : bool :=
  existsb (fun e => match e with EReadPixels => true | _ => false end) tr.

Definition spawned (tr : list Effect) : bool :=
  existsb (fun e => match e with EPopen _ => true | _ => false end) tr.

(** ** Predicates on worlds and runs *)

(** The streamer holds a handle to a process with an open pipe that it has
    not terminated. *)
Definition live_handle (w : World) : Prop :=
  exists pid p q,
    proc (self w) = Some pid /\ nth_error (procs w) pid = Some p /\
    stdin p = Some q /\ closed q = false /\ status p <> Terminated.

(** What every run keeps true. *)
Definition wf (w : World) : Prop :=
  (running (self w) = true -> last_error (self w) = EmptyString /\ live_handle w)
  /\ (running (self w) = false -> proc (self w) = None).

(** Runs in which [start] is never called. *)
Definition no_start (ev : Event) : Prop :=
  match ev with Start _ => False | _ => True end.

(** Every image the run sees has the size [W] x [H] and [W*H*4] samples. *)
Definition fixed_surface (W H : Z) (ev : Event) : Prop :=
  match ev with
  | Start env | Stop env | Tick env =>
      forall img, e_image env = Some img ->
                  size img = (W, H) /\ Z.of_nat (List.length (pixels img)) = W * H * 4
  | ChildExit _ _ => True
  end.

(** The pipe of the running session holds [frames_sent] frames of [n]
    bytes each, one after the other. *)
Definition framed (n : Z) (w : World) : Prop :=
  running (self w) = true ->
  exists p q frames,
    current_proc w = Some p /\ stdin p = Some q /\
    data q = List.concat frames /\
    Z.of_nat (List.length frames) = frames_sent (self w) /\
    Forall (fun f => Z.of_nat (List.length f) = n) frames.

(** A session: the worlds from a [start] that sets [running], in any
    reachable world, onward, while every image seen is of [W] x [H]. *)
Inductive session (W H : Z) : World -> Prop :=
| session_begin : forall w0 env,
    reachable any_event w0 ->
    running (self w0) = false ->
    fixed_surface W H (Start env) ->
    running (self (fst (start env w0))) = true ->
    session W H (fst (start env w0))
| session_step : forall w ev,
    session W H w -> fixed_surface W H ev -> session W H (step ev w).

(** The world after a list of events, oldest first. *)
Definition run (evs : list Event) (w : World) : World :=
  fold_left (fun w ev => step ev w) evs w.

(** ** The operators and the panel *)

(** [STREAM_OT_start.execute] and [STREAM_OT_stop.execute]: call the
    streamer and return the set with the one word FINISHED. *)
Definition STREAM_OT_start_execute (env : Env) (w : World) : Outcome * list string :=
  (start env w, ["FINISHED"%string]).

Definition STREAM_OT_stop_execute (env : Env) (w : World) : Outcome * list string :=
  (stop env w, ["FINISHED"%string]).

(** What [draw] puts on a layout: labels, operator buttons, rows that can
    be greyed out, and boxes. *)
#[local] Unset Elimination Schemes.
Inductive UI :=
| Label (text : string)
| Operator (idname : string) (text : string)
| Row (enabled : bool) (items : list UI)
| Box (items : list UI).
#[local] Set Elimination Schemes.

(** Python's [f"{x:.2f}"]: a float in fixed-point notation with two
    decimals. *)
Variable format_2f : float64 -> string.

(** [STREAM_PT_panel.draw]: the children of [self.layout], in order. *)
Definition draw (env : Env) (s : TextureStreamer) : list UI :=
  let size_str :=
    match e_image env with
    | Some img => (str (fst (size img)) ++ " x " ++ str (snd (size img)))%string
    | None => "n/a"%string
    end in
  let last_send :=
    if F64.gtb (last_send_time s) (F64.of_Z 0) then
      [Label ("Last send: "
              ++ format_2f (F64.sub (e_now env) (last_send_time s))
              ++ "s ago")%string]
    else [] in
  let err :=
    match last_error s with
    | EmptyString => []
    | _ => [Box [Label "Last error:"; Label (substring 0 120 (last_error s))]]
    end in
  [Box ([Row true [Label "Status:"; Label (status_text s)];
         Label ("Image: " ++ IMAGE_NAME)%string;
         Label ("Size: " ++ size_str)%string;
         Label ("FPS: " ++ str STREAM_FPS)%string;
         Label ("Output: " ++ UDP_URL)%string;
         Label ("Frames sent: " ++ str (frames_sent s))%string]
        ++ last_send)]
  ++ err
  ++ [Row (negb (running s)) [Operator "stream.start" "Start"];
      Row (running s) [Operator "stream.stop" "Stop"]].

(** Whether the row that holds the button of an operator is enabled. *)
Definition has_operator (idname : string) (items : list UI) : bool :=
  existsb (fun u => match u with
                    | Operator i _ => (i =? idname)%string
                    | _ => false
                    end) items.

Definition button_enabled (idname : string) (ui : list UI) : option bool :=
  match find (fun u => match u with
                       | Row _ items => has_operator idname items
                       | _ => false
                       end) ui with
  | Some (Row en _) => Some en
  | _ => None
  end.

(** ** More predicates on worlds and runs *)

Definition registered (tr : list Effect) : bool :=
  existsb (fun e => match e with ERegisterTimer => true | _ => false end) tr.

(** Every process was spawned with a pipe, and the pipe of every process
    the streamer does not hold is closed. *)
Definition others_closed (w : World) : Prop :=
  forall pid p,
    nth_error (procs w) pid = Some p ->
    exists q, stdin p = Some q /\ (proc (self w) <> Some pid -> closed q = true).

(** Every process the streamer does not hold has exited or has been sent
    SIGTERM. *)
Definition others_signalled (w : World) : Prop :=
  forall pid p,
    nth_error (procs w) pid = Some p -> proc (self w) <> Some pid ->
    status p <> Alive.

(** Runs in which [terminate] never raises. *)
Definition quiet_teardown (ev : Event) : Prop :=
  match ev with
  | Stop env | Tick env => e_terminate_raises env = false
  | _ => True
  end.

(** The second table has every entry of the first, with the same command
    line. *)
Definition keeps_argv (l l' : list Process) : Prop :=
  forall pid p, nth_error l pid = Some p ->
                exists p', nth_error l' pid = Some p' /\ argv p' = argv p.

(** The decimal digits and the minus sign. *)
Definition is_int_char (c : Ascii.ascii) : bool :=
  existsb (Ascii.eqb c) (list_ascii_of_string "-0123456789").

Definition int_string (s : string) : bool :=
  forallb is_int_char (list_ascii_of_string s).

(** ** Sample inputs *)

(** 0.25 as a binary32 number. *)
Definition quarter : float32 := S754_finite false 8388608 (-25).

(** A 4 x 2 image, opaque white. *)
Definition white_4x2 : Image :=
  {| size := (4, 2); is_dirty := true; pixels := repeat (F32.of_Z 1) 32 |}.

(** A single pixel that nobody painted. *)
Definition grey_1x1 : Image :=
  {| size := (1, 1); is_dirty := false;
     pixels := [quarter; quarter; quarter; F32.of_Z 1] |}.

Definition zero_width : Image :=
  {| size := (0, 2); is_dirty := false; pixels := [] |}.

(** A quiet outside: ffmpeg in the path, no call raises, the clock at
    [now] seconds. *)
Definition env_with (img : option Image) (now : Z) : Env :=
  {| e_image := img; e_which := true; e_popen := None;
     e_now := F64.of_Z now; e_write := None;
     e_terminate_raises := false |}.

Definition w_started (img : Image) : World :=
  step (Start (env_with (Some img) 100)) init_world.

Definition w_sent (img : Image) : World :=
  step (Tick (env_with (Some img) 100)) (w_started img).

Definition w_child_gone (img : Image) : World :=
  step (ChildExit 0 1) (w_started img).

Definition w_rejected : World :=
  step (Start (env_with None 100)) init_world.

(** A second session, after the first was stopped: process 0 was let go,
    process 1 is held. *)
Definition w_restarted (img : Image) : World :=
  step (Start (env_with (Some img) 100))
       (step (Stop (env_with None 0)) (w_started img)).

(** * Properties *)

(** ** The process table *)

Lemma nth_error_update_nth_same {A : Type} (f : A -> A) (l : list A) (n : nat) :
  nth_error (update_nth n f l) n = option_map f (nth_error l n).
Proof.
  revert n; induction l as [|x t IH]; intros [|n]; simpl; auto.
Qed.

Lemma nth_error_update_nth_other {A : Type} (f : A -> A) (l : list A) (n m : nat) :
  n <> m -> nth_error (update_nth n f l) m = nth_error l m.
Proof.
  revert n m; induction l as [|x t IH]; intros [|n] [|m] Hnm; simpl;
    solve [auto | congruence].
Qed.

Lemma length_update_nth {A : Type} (f : A -> A) (l : list A) (n : nat) :
  List.length (update_nth n f l) = List.length l.
Proof.
  revert n; induction l as [|x t IH]; intros [|n]; simpl; auto.
Qed.

Lemma nth_error_snoc {A : Type} (l : list A) (x : A) :
  nth_error (l ++ [x]) (List.length l) = Some x.
Proof.
  rewrite nth_error_app2 by lia. rewrite Nat.sub_diag. reflexivity.
Qed.

(** ** What [stop] leaves behind *)

Lemma stop_idle env w :
  running (self w) = false -> stop env w = (w, []).
Proof.
  intros H. unfold stop. rewrite H. reflexivity.
Qed.

Lemma stop_self env w :
  running (self w) = true ->
  self (fst (stop env w)) = set_proc None (set_running false (self w)).
Proof.
  intros H. unfold stop. rewrite H. simpl.
  destruct (proc (self w)) eqn:Hp; simpl; unfold set_proc, set_running; simpl;
    rewrite ?Hp; reflexivity.
Qed.

Lemma stop_not_running env w : running (self (fst (stop env w))) = false.
Proof.
  destruct (running (self w)) eqn:H.
  - rewrite stop_self by assumption. reflexivity.
  - rewrite stop_idle by assumption. assumption.
Qed.

Lemma and_then_fst r k : fst (and_then r k) = fst (k (fst r)).
Proof.
  unfold and_then. destruct r as [w1 t1]. simpl. destruct (k w1). reflexivity.
Qed.

Lemma and_then_snd r k : snd (and_then r k) = snd r ++ snd (k (fst r)).
Proof.
  unfold and_then. destruct r as [w1 t1]. simpl. destruct (k w1). reflexivity.
Qed.

Lemma fail_and_stop_self env pre msg w :
  running (self w) = true ->
  self (fst (fst (fail_and_stop env pre msg w)))
  = set_proc None (set_running false (set_last_error msg (self w))).
Proof.
  intros H. unfold fail_and_stop. cbn [fst].
  rewrite !and_then_fst. cbn [fst]. rewrite stop_self; [reflexivity | exact H].
Qed.

(** ** The invariant of every run *)

Lemma wf_init : wf init_world.
Proof.
  split; simpl; intros H; [discriminate | reflexivity].
Qed.

Lemma wf_idle w :
  running (self w) = false -> proc (self w) = None -> wf w.
Proof.
  intros Hr Hp. split; intros H; [congruence | assumption].
Qed.

Lemma wf_start env w : wf w -> wf (fst (start env w)).
Proof.
  intros Hwf. unfold start.
  destruct (running (self w)) eqn:Hr; [exact Hwf|].
  destruct Hwf as [_ Hidle]. specialize (Hidle Hr).
  destruct (e_image env) as [img|].
  2:{ rewrite and_then_fst. apply wf_idle; simpl; assumption. }
  destruct (size img) as [W H].
  destruct ((W =? 0) || (H =? 0)).
  { rewrite and_then_fst. apply wf_idle; simpl; assumption. }
  destruct ((FFMPEG_BIN =? "ffmpeg")%string && negb (e_which env)).
  { rewrite and_then_fst. apply wf_idle; simpl; assumption. }
  destruct (e_popen env) as [e|].
  { rewrite and_then_fst. apply wf_idle; simpl; auto. }
  cbn [fst]. split; simpl; intros Hx; [|discriminate Hx].
  split; [reflexivity|].
  exists (List.length (procs w)), (popen (ffmpeg_cmd W H)),
    {| closed := false; data := [] |}.
  simpl. rewrite nth_error_snoc. repeat split; discriminate.
Qed.

Lemma wf_stop env w : wf w -> wf (fst (stop env w)).
Proof.
  intros Hwf.
  destruct (running (self w)) eqn:Hr.
  - apply wf_idle.
    + apply stop_not_running.
    + rewrite stop_self by assumption. reflexivity.
  - rewrite stop_idle by assumption. exact Hwf.
Qed.

Lemma wf_fail_and_stop env pre msg w :
  running (self w) = true -> wf (fst (fst (fail_and_stop env pre msg w))).
Proof.
  intros Hr. apply wf_idle; rewrite fail_and_stop_self by assumption; reflexivity.
Qed.

Lemma live_handle_feed w pid bytes :
  live_handle w -> live_handle (with_proc pid (feed bytes) w).
Proof.
  intros (pid' & p & q & Hp & Hn & Hs & Hc & Ht).
  destruct (Nat.eq_dec pid pid') as [->|Hne].
  - exists pid', (feed bytes p), {| closed := closed q; data := data q ++ bytes |}.
    simpl. rewrite nth_error_update_nth_same, Hn, Hs. auto.
  - exists pid', p, q. simpl.
    rewrite nth_error_update_nth_other by assumption. auto.
Qed.

Lemma wf_stream env w : wf w -> wf (fst (fst (stream env w))).
Proof.
  intros Hwf. unfold stream.
  destruct (running (self w)) eqn:Hr; simpl negb; cbv iota; [|exact Hwf].
  destruct (proc_exited w); [apply wf_fail_and_stop; assumption|].
  destruct (e_image env) as [img|]; [|apply wf_fail_and_stop; assumption].
  destruct (should_send img (e_now env) (last_send_time (self w)));
    simpl negb; cbv iota; [|exact Hwf].
  destruct (proc (self w)) as [pid|] eqn:Hp; [|apply wf_fail_and_stop; assumption].
  destruct (has_stdin w pid); simpl negb; cbv iota;
    [|apply wf_fail_and_stop; assumption].
  destruct (e_write env) as [[k e]|]; [apply wf_fail_and_stop; assumption|].
  simpl fst. destruct Hwf as [Hrun _]. destruct (Hrun Hr) as [He Hl].
  split; simpl; intros H; [|congruence].
  split; [assumption|].
  apply (live_handle_feed w pid (to_u8 (pixels img))) in Hl.
  destruct Hl as (pid' & p & q & Hl). exists pid', p, q. exact Hl.
Qed.

Lemma wf_child_exit pid code w : wf w -> wf (with_proc pid (child_exit code) w).
Proof.
  intros [Hrun Hidle]. split; simpl; [|exact Hidle].
  intros Hr. destruct (Hrun Hr) as [He (pid' & p & q & Hp & Hn & Hs & Hc & Ht)].
  split; [assumption|].
  destruct (Nat.eq_dec pid pid') as [->|Hne].
  - exists pid', (child_exit code p), q. simpl.
    rewrite nth_error_update_nth_same, Hn. simpl.
    unfold child_exit. destruct (status p) eqn:Hst; simpl; rewrite ?Hst;
      repeat split; auto; discriminate.
  - exists pid', p, q. simpl.
    rewrite nth_error_update_nth_other by assumption. auto.
Qed.

Lemma wf_step ev w : wf w -> wf (step ev w).
Proof.
  destruct ev; simpl.
  - apply wf_start.
  - apply wf_stop.
  - apply wf_stream.
  - apply wf_child_exit.
Qed.

Lemma reachable_wf P w : reachable P w -> wf w.
Proof.
  induction 1; [apply wf_init | apply wf_step; assumption].
Qed.

(** ** Rejected starts *)

Lemma start_error_outcome w pre msg :
  running (self w) = false ->
  let w1 := with_self (fun s => set_last_send_time (F64.of_Z 0)
                                  (set_frames_sent 0 (set_last_error EmptyString s))) w in
  let r := and_then (w1, pre) (_set_error msg) in
  last_error (self (fst r)) = msg /\
  frames_sent (self (fst r)) = 0 /\
  running (self (fst r)) = false /\
  proc (self (fst r)) = proc (self w) /\
  procs (fst r) = procs w /\
  snd r = pre ++ [EPrint ("[TextureStreamer] " ++ msg)%string].
Proof.
  intros Hr. cbv zeta. rewrite and_then_fst, and_then_snd. cbn [fst snd].
  unfold _set_error. cbn [fst snd].
  repeat split; try reflexivity. exact Hr.
Qed.

(** What a [start] that begins a session sets up. *)
Lemma start_begins env w :
  running (self w) = false ->
  running (self (fst (start env w))) = true ->
  exists img,
    e_image env = Some img /\
    fst (start env w)
    = {| self := {| proc := Some (List.length (procs w)); running := true;
                    last_error := EmptyString;
                    last_send_time := F64.of_Z 0; frames_sent := 0 |};
         procs := procs w ++ [popen (ffmpeg_cmd (fst (size img)) (snd (size img)))] |}.
Proof.
  intros Hr. unfold start. rewrite Hr.
  destruct (e_image env) as [img|].
  2:{ rewrite and_then_fst. cbn. congruence. }
  destruct (size img) as [W H] eqn:Hsz.
  destruct ((W =? 0) || (H =? 0)).
  { rewrite and_then_fst. cbn. congruence. }
  destruct ((FFMPEG_BIN =? "ffmpeg")%string && negb (e_which env)).
  { rewrite and_then_fst. cbn. congruence. }
  destruct (e_popen env) as [e|].
  { rewrite and_then_fst. cbn. congruence. }
  intros _. exists img. split; [reflexivity|]. rewrite Hsz. reflexivity.
Qed.

(** C5. A [start] from the idle state that finds no image, or an image of
    width or height zero, records a non-empty error (the status reads
    "Error"), leaves [frames_sent] at 0, calls [Popen] not at all, leaves the
    handle and the process table as they were, and [running] stays false. *)
Theorem start_rejects_bad_surface (env : Env) (w : World) :
  running (self w) = false ->
  (e_image env = None \/
   exists img, e_image env = Some img /\
               (fst (size img) = 0 \/ snd (size img) = 0)) ->
  let w' := fst (start env w) in
  let tr := snd (start env w) in
  last_error (self w') <> EmptyString /\
  status_text (self w') = "Error"%string /\
  frames_sent (self w') = 0 /\
  spawned tr = false /\
  procs w' = procs w /\
  proc (self w') = proc (self w) /\
  running (self w') = false.
Proof.
  intros Hr Hbad. cbv zeta. unfold start. rewrite Hr.
  destruct Hbad as [Hnone | (img & Himg & Hdim)].
  - rewrite Hnone.
    destruct (start_error_outcome w [EGetImage]
                ("Image not found: " ++ IMAGE_NAME)%string Hr)
      as (He & Hf & Hrun & Hp & Hps & Ht).
    unfold status_text. rewrite He, Ht.
    repeat split; try assumption; try reflexivity; discriminate.
  - rewrite Himg. destruct (size img) as [W H]. cbn [fst snd] in Hdim.
    assert (Hz : (W =? 0) || (H =? 0) = true).
    { destruct Hdim as [-> | ->]; [reflexivity | apply orb_true_r]. }
    rewrite Hz.
    destruct (start_error_outcome w [EGetImage]
                ("Invalid image size: " ++ str W ++ "x" ++ str H)%string Hr)
      as (He & Hf & Hrun & Hp & Hps & Ht).
    unfold status_text. rewrite He, Ht.
    repeat split; try assumption; try reflexivity; discriminate.
Qed.

(** ** Idempotence *)

Lemma stream_idle env w :
  running (self w) = false -> stream env w = ((w, []), None).
Proof.
  intros H. unfold stream. rewrite H. reflexivity.
Qed.

Lemma never_started w : reachable no_start w -> self w = init_self.
Proof.
  induction 1 as [|w ev Hw IH Hev]; [reflexivity|].
  destruct ev as [env|env|env|pid code]; simpl in *.
  - contradiction.
  - rewrite stop_idle; [assumption | rewrite IH; reflexivity].
  - rewrite stream_idle; [assumption | rewrite IH; reflexivity].
  - assumption.
Qed.

(** C6. [start] while running changes nothing and calls nothing; [stop]
    while not running changes nothing and calls nothing.  From the
    Streaming status a first [stop] leaves the status "Stopped" with no error
    recorded and a second [stop] is a no-op; in a run without any [start],
    [stop] is a no-op and the status is "Stopped". *)
Theorem start_stop_idempotent :
  (forall env w, running (self w) = true -> start env w = (w, [])) /\
  (forall env w, running (self w) = false -> stop env w = (w, [])) /\
  (forall e1 e2 w,
      status_text (self w) = "Streaming"%string ->
      let w1 := fst (stop e1 w) in
      last_error (self w1) = EmptyString /\
      status_text (self w1) = "Stopped"%string /\
      stop e2 w1 = (w1, [])) /\
  (forall env w,
      reachable no_start w ->
      stop env w = (w, []) /\ status_text (self w) = "Stopped"%string).
Proof.
  split; [|split; [|split]].
  - intros env w H. unfold start. rewrite H. reflexivity.
  - intros env w H. apply stop_idle, H.
  - intros e1 e2 w Hs. cbv zeta.
    assert (He : last_error (self w) = EmptyString).
    { unfold status_text in Hs. destruct (last_error (self w)); [reflexivity|discriminate]. }
    assert (Hr : running (self w) = true).
    { unfold status_text in Hs. rewrite He in Hs.
      destruct (running (self w)); [reflexivity|discriminate]. }
    assert (Hs1 : self (fst (stop e1 w)) = set_proc None (set_running false (self w)))
      by (apply stop_self, Hr).
    repeat split.
    + rewrite Hs1. exact He.
    + unfold status_text. rewrite Hs1. simpl. rewrite He. reflexivity.
    + apply stop_idle. rewrite Hs1. reflexivity.
  - intros env w Hw. apply never_started in Hw. split.
    + apply stop_idle. rewrite Hw. reflexivity.
    + rewrite Hw. reflexivity.
Qed.

(** ** Invariants of the pipeline state *)

(** C7. In every world a run reaches, a non-empty [last_error] comes with
    [running] false. *)
Theorem error_implies_stopped (w : World) :
  reachable any_event w ->
  last_error (self w) <> EmptyString ->
  running (self w) = false.
Proof.
  intros Hw He. apply reachable_wf in Hw. destruct Hw as [Hrun _].
  destruct (running (self w)); [|reflexivity].
  destruct (Hrun eq_refl) as [H _]. contradiction.
Qed.

Lemma procs_stop env w :
  List.length (procs (fst (stop env w))) = List.length (procs w).
Proof.
  unfold stop. destruct (negb (running (self w))); [reflexivity|].
  cbv zeta. destruct (proc (self (with_self (set_running false) w))) as [pid|];
    [|reflexivity].
  cbn [fst procs with_self with_proc]. rewrite !length_update_nth. reflexivity.
Qed.

Lemma procs_fail_and_stop env pre msg w :
  List.length (procs (fst (fst (fail_and_stop env pre msg w)))) = List.length (procs w).
Proof.
  unfold fail_and_stop. cbn [fst]. rewrite !and_then_fst. cbn [fst].
  rewrite procs_stop. reflexivity.
Qed.

Lemma procs_stream env w :
  List.length (procs (fst (fst (stream env w)))) = List.length (procs w).
Proof.
  unfold stream.
  destruct (negb (running (self w))); [reflexivity|].
  destruct (proc_exited w); [apply procs_fail_and_stop|].
  destruct (e_image env) as [img|]; [|apply procs_fail_and_stop].
  destruct (negb (should_send _ _ _)); [reflexivity|].
  destruct (proc (self w)) as [pid|]; [|apply procs_fail_and_stop].
  destruct (negb (has_stdin w pid)); [apply procs_fail_and_stop|].
  destruct (e_write env) as [[k e]|].
  - rewrite procs_fail_and_stop. cbn [procs with_proc]. apply length_update_nth.
  - cbn [fst procs with_self with_proc]. apply length_update_nth.
Qed.

Lemma procs_start env w :
  (List.length (procs w) <= List.length (procs (fst (start env w))))%nat.
Proof.
  unfold start. destruct (running (self w)); [reflexivity|].
  destruct (e_image env) as [img|]; [|rewrite and_then_fst; reflexivity].
  destruct (size img) as [W H].
  destruct ((W =? 0) || (H =? 0)); [rewrite and_then_fst; reflexivity|].
  destruct ((FFMPEG_BIN =? "ffmpeg")%string && negb (e_which env));
    [rewrite and_then_fst; reflexivity|].
  destruct (e_popen env) as [e|]; [rewrite and_then_fst; reflexivity|].
  cbn [fst procs with_self]. rewrite length_app. cbn [List.length]. lia.
Qed.

(** The process table never shrinks. *)
Lemma procs_run evs w :
  (List.length (procs w) <= List.length (procs (run evs w)))%nat.
Proof.
  revert w. induction evs as [|ev evs IH]; intros w; [reflexivity|].
  cbn [run fold_left]. fold (run evs (step ev w)).
  apply Nat.le_trans with (List.length (procs (step ev w))); [|apply IH].
  destruct ev as [env|env|env|pid code]; cbn [step].
  - apply procs_start.
  - rewrite procs_stop. reflexivity.
  - rewrite procs_stream. reflexivity.
  - cbn [procs with_proc]. rewrite length_update_nth. reflexivity.
Qed.

(** C10. In every world a run reaches, the streamer holds a process handle
    exactly when [running] is true; a [start] that begins a session takes
    the index past the end of the process table, whose entry is a freshly
    spawned process; and a handle the streamer holds now is never the one a
    later [start] takes, whatever happens in between. *)
Theorem handle_iff_running (w : World) :
  reachable any_event w ->
  (proc (self w) <> None <-> running (self w) = true) /\
  (forall env,
      running (self w) = false ->
      running (self (fst (start env w))) = true ->
      let w' := fst (start env w) in
      proc (self w') = Some (List.length (procs w)) /\
      nth_error (procs w) (List.length (procs w)) = None /\
      exists cmd, nth_error (procs w') (List.length (procs w)) = Some (popen cmd)) /\
  (forall pid evs env,
      proc (self w) = Some pid ->
      running (self (run evs w)) = false ->
      running (self (fst (start env (run evs w)))) = true ->
      proc (self (fst (start env (run evs w)))) <> Some pid).
Proof.
  intros Hw. apply reachable_wf in Hw. destruct Hw as [Hrun Hidle].
  split; [|split].
  - split.
    + intros Hp. destruct (running (self w)); [reflexivity|].
      elim Hp. apply Hidle. reflexivity.
    + intros Hr. destruct (Hrun Hr) as [_ (pid & p & q & Hp & _)].
      rewrite Hp. discriminate.
  - intros env Hr Hr'. cbv zeta.
    destruct (start_begins env w Hr Hr') as (img & _ & ->).
    cbn [self proc procs]. split; [reflexivity|]. split.
    + apply nth_error_None. lia.
    + eexists. apply nth_error_snoc.
  - intros pid evs env Hp Hr Hr'.
    destruct (start_begins env (run evs w) Hr Hr') as (img & _ & ->).
    cbn [self proc]. intros Heq. injection Heq as Heq.
    assert (Hlt : (pid < List.length (procs w))%nat).
    { destruct (running (self w)) eqn:Hrw.
      - destruct (Hrun eq_refl) as [_ (pid' & p & q & Hp' & Hn & _)].
        assert (pid' = pid) by congruence. subst pid'.
        apply nth_error_Some. rewrite Hn. discriminate.
      - rewrite (Hidle eq_refl) in Hp. discriminate. }
    pose proof (procs_run evs w). lia.
Qed.

(** ** Traces of [stop] and [stream] *)

Lemma sent_app t1 t2 : sent (t1 ++ t2) = sent t1 || sent t2.
Proof. apply existsb_app. Qed.

Lemma read_pixels_app t1 t2 : read_pixels (t1 ++ t2) = read_pixels t1 || read_pixels t2.
Proof. apply existsb_app. Qed.

Lemma stop_trace env w :
  sent (snd (stop env w)) = false /\ read_pixels (snd (stop env w)) = false.
Proof.
  unfold stop. destruct (negb (running (self w))); [split; reflexivity|].
  cbv zeta. destruct (proc (self (with_self (set_running false) w))) as [pid|];
    [|split; reflexivity].
  cbn [snd]. rewrite sent_app, read_pixels_app.
  destruct (has_stdin _ pid); split; reflexivity.
Qed.

Lemma fail_and_stop_trace env pre msg w :
  snd (fst (fail_and_stop env pre msg w))
  = pre ++ EPrint ("[TextureStreamer] " ++ msg)%string
          :: snd (stop env (with_self (set_last_error msg) w)).
Proof.
  unfold fail_and_stop. cbn [fst]. rewrite and_then_snd, and_then_snd, and_then_fst.
  cbn [fst snd]. unfold _set_error. cbn [fst snd]. rewrite <- app_assoc. reflexivity.
Qed.

Lemma fail_and_stop_sent env pre msg w :
  sent (snd (fst (fail_and_stop env pre msg w))) = sent pre.
Proof.
  rewrite fail_and_stop_trace, sent_app. cbn [sent existsb].
  change (existsb _ ?t) with (sent t).
  rewrite (proj1 (stop_trace env _)). rewrite orb_false_r. reflexivity.
Qed.

Lemma fail_and_stop_ret env pre msg w : snd (fail_and_stop env pre msg w) = None.
Proof. reflexivity. Qed.

Lemma fail_and_stop_procs env pre msg w pid :
  running (self w) = true -> proc (self w) = Some pid ->
  procs (fst (fst (fail_and_stop env pre msg w)))
  = update_nth pid (terminate (e_terminate_raises env))
      (update_nth pid close_pipe (procs w)).
Proof.
  intros Hr Hp. unfold fail_and_stop. cbn [fst]. rewrite !and_then_fst.
  cbn [fst]. unfold _set_error. cbn [fst]. unfold stop.
  cbn [self with_self set_last_error running]. rewrite Hr. cbn [negb].
  cbv zeta. cbn [self with_self].
  change (proc (set_running false (set_last_error msg (self w)))) with (proc (self w)).
  rewrite Hp. reflexivity.
Qed.

(** A running world of a run holds a handle with a pipe; the child is
    reported as exited exactly when its status is no longer [Alive]. *)
Lemma running_handle w :
  wf w -> running (self w) = true ->
  exists pid p q,
    proc (self w) = Some pid /\ nth_error (procs w) pid = Some p /\
    current_proc w = Some p /\ stdin p = Some q /\ closed q = false /\
    status p <> Terminated /\ has_stdin w pid = true /\
    (proc_exited w = false <-> status p = Alive).
Proof.
  intros [Hrun _] Hr. destruct (Hrun Hr) as [_ (pid & p & q & Hp & Hn & Hs & Hc & Ht)].
  exists pid, p, q. unfold current_proc, has_stdin, proc_exited, poll_proc, poll.
  rewrite Hp, Hn, Hs. repeat split; auto.
  - destruct (status p); [reflexivity | discriminate | contradiction].
  - intros ->. reflexivity.
Qed.

Lemma stream_exited env w :
  running (self w) = true -> proc_exited w = true ->
  stream env w
  = fail_and_stop env
      (match proc (self w) with Some pid => [EPoll pid] | None => [] end)
      "ffmpeg exited unexpectedly." w.
Proof.
  intros Hr He. unfold stream. rewrite Hr, He. reflexivity.
Qed.

(** The three ways a tick ends once the child is alive and the image is
    there. *)
Lemma stream_live env w pid img :
  running (self w) = true -> proc (self w) = Some pid ->
  proc_exited w = false -> has_stdin w pid = true ->
  e_image env = Some img ->
  let t2 := [EPoll pid; EGetImage; ETime; EReadPixels] in
  let u8 := to_u8 (pixels img) in
  stream env w =
  if should_send img (e_now env) (last_send_time (self w)) then
    match e_write env with
    | Some (k, e) =>
        fail_and_stop env (t2 ++ [EWrite pid u8]) ("Write failed: " ++ e)%string
                      (with_proc pid (feed (firstn k u8)) w)
    | None =>
        ((with_self (fun s => set_frames_sent (frames_sent s + 1)
                                (set_last_send_time (e_now env) s))
                    (with_proc pid (feed u8) w),
          t2 ++ [EWrite pid u8]),
         Some period)
    end
  else ((w, [EPoll pid; EGetImage; ETime]), Some period).
Proof.
  intros Hr Hp He Hs Hi. cbv zeta. unfold stream.
  rewrite Hr, He, Hi, Hp, Hs. cbn [negb].
  destruct (should_send img (e_now env) (last_send_time (self w))); cbn [negb];
    [|reflexivity].
  destruct (e_write env) as [[k e]|]; reflexivity.
Qed.

(** How a tick of a running session ends. *)
Lemma stream_cases env w :
  wf w -> running (self w) = true ->
  exists pid p q,
    proc (self w) = Some pid /\ nth_error (procs w) pid = Some p /\
    current_proc w = Some p /\ stdin p = Some q /\ closed q = false /\
    ((status p <> Alive /\
      stream env w = fail_and_stop env [EPoll pid] "ffmpeg exited unexpectedly." w)
     \/
     (status p = Alive /\ e_image env = None /\
      stream env w = fail_and_stop env [EPoll pid; EGetImage]
                       ("Image missing: " ++ IMAGE_NAME)%string w)
     \/
     (status p = Alive /\ exists img, e_image env = Some img /\
      stream env w =
      if should_send img (e_now env) (last_send_time (self w)) then
        match e_write env with
        | Some (k, e) =>
            fail_and_stop env
              ([EPoll pid; EGetImage; ETime; EReadPixels] ++ [EWrite pid (to_u8 (pixels img))])
              ("Write failed: " ++ e)%string
              (with_proc pid (feed (firstn k (to_u8 (pixels img)))) w)
        | None =>
            ((with_self (fun s => set_frames_sent (frames_sent s + 1)
                                    (set_last_send_time (e_now env) s))
                        (with_proc pid (feed (to_u8 (pixels img))) w),
              [EPoll pid; EGetImage; ETime; EReadPixels] ++ [EWrite pid (to_u8 (pixels img))]),
             Some period)
        end
      else ((w, [EPoll pid; EGetImage; ETime]), Some period))).
Proof.
  intros Hwf Hr.
  destruct (running_handle w Hwf Hr)
    as (pid & p & q & Hp & Hn & Hcur & Hs & Hc & Ht & Hin & Hex).
  exists pid, p, q. repeat (split; [assumption|]).
  destruct (proc_exited w) eqn:He.
  - left. split.
    + intros Ha. apply Hex in Ha. discriminate.
    + rewrite stream_exited by assumption. rewrite Hp. reflexivity.
  - assert (Ha : status p = Alive) by (apply Hex; reflexivity).
    right. destruct (e_image env) as [img|] eqn:Hi.
    + right. split; [assumption|]. exists img. split; [reflexivity|].
      apply stream_live; assumption.
    + left. repeat split; try assumption.
      unfold stream. rewrite Hr, He, Hi, Hp. reflexivity.
Qed.

(** ** The send gate *)

(** C3. A tick of a running session whose child is alive and whose image is
    present writes a frame exactly when the image is dirty or
    [now - last_send_time > KEEPALIVE_SECONDS]; a dirty image is always
    written; and a tick that does not write reads no pixels, leaves the
    world as it was and returns the period [1.0 / STREAM_FPS]. *)
Theorem tick_sends_iff_should_send (env : Env) (w : World) (p : Process) (img : Image) :
  reachable any_event w ->
  running (self w) = true ->
  current_proc w = Some p -> status p = Alive ->
  e_image env = Some img ->
  let w' := fst (fst (stream env w)) in
  let tr := snd (fst (stream env w)) in
  let ret := snd (stream env w) in
  sent tr = (is_dirty img
             || F64.gtb (F64.sub (e_now env) (last_send_time (self w)))
                        KEEPALIVE_SECONDS) /\
  (is_dirty img = true -> sent tr = true) /\
  (sent tr = false ->
   read_pixels tr = false /\ w' = w /\
   ret = Some (F64.div (F64.of_Z 1) (F64.of_Z STREAM_FPS))).
Proof.
  intros Hw Hr Hcur Ha Hi. cbv zeta.
  change (is_dirty img || F64.gtb (F64.sub (e_now env) (last_send_time (self w)))
                                  KEEPALIVE_SECONDS)
    with (should_send img (e_now env) (last_send_time (self w))).
  assert (Hd : is_dirty img = true ->
               should_send img (e_now env) (last_send_time (self w)) = true).
  { intros Hd. unfold should_send. rewrite Hd. reflexivity. }
  apply reachable_wf in Hw.
  destruct (stream_cases env w Hw Hr)
    as (pid & p' & q & Hp & Hn & Hcur' & Hs & Hc & Hcases).
  assert (p' = p) by congruence. subst p'.
  destruct Hcases as [[Hna _] | [(_ & Hnone & _) | (_ & img' & Hi' & Hst)]];
    [contradiction | congruence |].
  assert (img' = img) by congruence. subst img'.
  rewrite Hst.
  destruct (should_send img (e_now env) (last_send_time (self w))) eqn:Hss.
  - destruct (e_write env) as [[k e]|].
    + rewrite fail_and_stop_sent.
      repeat split; try reflexivity; intros; discriminate.
    + cbn [fst snd]. repeat split; try reflexivity; intros; discriminate.
  - cbn [fst snd]. repeat split; try reflexivity.
    intros Hdirty. apply Hd in Hdirty. discriminate.
Qed.

(** ** Liveness is polled before the write *)

Lemma data_after_teardown r p :
  option_map data (stdin (terminate r (close_pipe p))) = option_map data (stdin p).
Proof.
  unfold terminate, close_pipe.
  destruct r, (status p), (stdin p); reflexivity.
Qed.

Lemma stream_two_parts env w :
  stream env w
  = match stream_gate env w with
    | inl r => r
    | inr (t2, u8) => stream_write env t2 u8 w
    end.
Proof.
  unfold stream, stream_gate, stream_write.
  destruct (negb (running (self w))); [reflexivity|].
  destruct (proc_exited w); [reflexivity|].
  destruct (e_image env) as [img|]; [|reflexivity].
  destruct (negb (should_send img (e_now env) (last_send_time (self w))));
    reflexivity.
Qed.

(** C4, as the code has it.  Liveness is polled once in a tick, at its
    start, before any write of that tick.  Every tick that writes has
    polled the child first, and the poll said the child was running.  A
    tick whose poll finds the child exited records "ffmpeg exited
    unexpectedly.", writes nothing (the bytes in the pipe are the ones
    that were there), stops the session and returns [None].  Nothing looks
    at the child again before the write: when the child exits after the
    poll, in the same tick, the frame is still written to its pipe; a
    write that raises is then recorded as "Write failed: ..." and stops
    the session, and a write that does not raise counts as a frame
    sent. *)
Theorem no_write_to_exited_process (env : Env) (w : World) :
  (sent (snd (fst (stream env w))) = true ->
   exists pid bytes rest,
     snd (fst (stream env w))
     = [EPoll pid; EGetImage; ETime; EReadPixels; EWrite pid bytes] ++ rest /\
     proc (self w) = Some pid /\ poll_proc w pid = None) /\
  (forall pid p c,
      running (self w) = true ->
      proc (self w) = Some pid -> nth_error (procs w) pid = Some p ->
      poll p = Some c ->
      let w' := fst (fst (stream env w)) in
      last_error (self w') = "ffmpeg exited unexpectedly."%string /\
      sent (snd (fst (stream env w))) = false /\
      snd (stream env w) = None /\
      running (self w') = false /\
      exists p', nth_error (procs w') pid = Some p' /\
                 option_map data (stdin p') = option_map data (stdin p)) /\
  (forall code p img,
      reachable any_event w ->
      running (self w) = true ->
      current_proc w = Some p -> status p = Alive ->
      e_image env = Some img ->
      should_send img (e_now env) (last_send_time (self w)) = true ->
      let w' := fst (fst (stream_child_exits code env w)) in
      exists pid rest p',
        proc (self w) = Some pid /\
        snd (fst (stream_child_exits code env w))
        = [EPoll pid; EGetImage; ETime; EReadPixels; EWrite pid (to_u8 (pixels img))]
            ++ rest /\
        nth_error (procs w') pid = Some p' /\ status p' = Exited code /\
        (forall k e, e_write env = Some (k, e) ->
                     last_error (self w') = ("Write failed: " ++ e)%string /\
                     running (self w') = false /\
                     snd (stream_child_exits code env w) = None) /\
        (e_write env = None ->
         running (self w') = true /\
         frames_sent (self w') = frames_sent (self w) + 1 /\
         snd (stream_child_exits code env w) = Some period)).
Proof.
  split; [|split].
  - unfold stream.
    destruct (running (self w)) eqn:Hr; cbn [negb]; [|discriminate].
    destruct (proc_exited w) eqn:He.
    { rewrite fail_and_stop_sent. destruct (proc (self w)); discriminate. }
    destruct (e_image env) as [img|].
    2:{ rewrite fail_and_stop_sent. destruct (proc (self w)); discriminate. }
    destruct (should_send img (e_now env) (last_send_time (self w))); cbn [negb].
    2:{ cbn [fst snd]. destruct (proc (self w)); discriminate. }
    destruct (proc (self w)) as [pid|] eqn:Hp.
    2:{ rewrite fail_and_stop_sent. discriminate. }
    assert (Hpoll : poll_proc w pid = None).
    { unfold proc_exited in He. rewrite Hp in He.
      destruct (poll_proc w pid); [discriminate | reflexivity]. }
    destruct (has_stdin w pid); cbn [negb].
    2:{ rewrite fail_and_stop_sent. discriminate. }
    destruct (e_write env) as [[k e]|].
    + intros _. rewrite fail_and_stop_trace. eexists pid, _, _.
      repeat split; assumption.
    + intros _. cbn [fst snd]. exists pid, (to_u8 (pixels img)), [].
      repeat split; assumption.
  - intros pid p c Hr Hp Hn Hpoll. cbv zeta.
    assert (He : proc_exited w = true).
    { unfold proc_exited, poll_proc. rewrite Hp, Hn, Hpoll. reflexivity. }
    rewrite stream_exited by assumption.
    rewrite fail_and_stop_self, fail_and_stop_sent, fail_and_stop_ret by assumption.
    rewrite (fail_and_stop_procs env _ _ w pid) by assumption.
    rewrite Hp. repeat split.
    exists (terminate (e_terminate_raises env) (close_pipe p)).
    rewrite !nth_error_update_nth_same, Hn. split; [reflexivity|].
    apply data_after_teardown.
  - intros code p img Hw Hr Hcur Ha Hi Hss. cbv zeta.
    apply reachable_wf in Hw.
    destruct (running_handle w Hw Hr)
      as (pid & p0 & q & Hp & Hn & Hcur0 & Hs & Hc & Ht & Hin & Hex).
    assert (p0 = p) by congruence. subst p0.
    assert (He : proc_exited w = false) by (apply Hex; exact Ha).
    unfold stream_child_exits, stream_gate.
    rewrite Hr, He, Hi, Hss, Hp. cbn [negb app].
    set (w1 := with_proc pid (child_exit code) w).
    assert (Hn1 : nth_error (procs w1) pid = Some (child_exit code p)).
    { unfold w1. cbn [procs with_proc]. rewrite nth_error_update_nth_same, Hn.
      reflexivity. }
    assert (Hst1 : status (child_exit code p) = Exited code).
    { unfold child_exit. rewrite Ha. reflexivity. }
    assert (Hin1 : has_stdin w1 pid = true).
    { unfold has_stdin. rewrite Hn1. unfold child_exit. rewrite Ha. cbn [stdin].
      rewrite Hs. reflexivity. }
    unfold stream_write. change (proc (self w1)) with (proc (self w)).
    rewrite Hp, Hin1. cbn [negb].
    destruct (e_write env) as [[k e]|].
    + set (w2 := with_proc pid (feed (firstn k (to_u8 (pixels img)))) w1).
      assert (Hr2 : running (self w2) = true) by exact Hr.
      assert (Hp2 : proc (self w2) = Some pid) by exact Hp.
      exists pid. eexists.
      exists (terminate (e_terminate_raises env)
                (close_pipe (feed (firstn k (to_u8 (pixels img))) (child_exit code p)))).
      split; [reflexivity|]. split; [rewrite fail_and_stop_trace; reflexivity|].
      rewrite fail_and_stop_self, (fail_and_stop_procs env _ _ w2 pid) by assumption.
      split.
      { unfold w2. cbn [procs with_proc].
        rewrite !nth_error_update_nth_same, Hn1. reflexivity. }
      split.
      { unfold terminate, close_pipe, feed. cbn [status]. rewrite Hst1.
        destruct (e_terminate_raises env); reflexivity. }
      split.
      { intros k' e' Heq. injection Heq as _ <-. repeat split. }
      intros Habs. discriminate Habs.
    + exists pid, [], (feed (to_u8 (pixels img)) (child_exit code p)).
      split; [reflexivity|]. split; [reflexivity|]. cbn [fst snd].
      split.
      { cbn [procs with_self with_proc].
        rewrite nth_error_update_nth_same, Hn1. reflexivity. }
      split; [exact Hst1|].
      split; [intros k e Habs; discriminate Habs|].
      intros _. repeat split. exact Hr.
Qed.

(** ** The handle of a running session *)

(** C8, as the code has it.  While [running] is true the streamer holds a
    handle whose pipe is open and which it has not terminated.  The child
    is alive right after a [start] that begins a session and right after
    every tick that leaves [running] true.  A child that exited by itself
    is found by the next tick, which stops the session with an error and
    writes nothing. *)
Theorem running_handle_state (w : World) :
  reachable any_event w ->
  (running (self w) = true ->
   exists p q, current_proc w = Some p /\ stdin p = Some q /\
               closed q = false /\ status p <> Terminated) /\
  (forall env,
      running (self w) = false ->
      running (self (fst (start env w))) = true ->
      exists p, current_proc (fst (start env w)) = Some p /\ status p = Alive) /\
  (forall env,
      running (self (fst (fst (stream env w)))) = true ->
      exists p, current_proc (fst (fst (stream env w))) = Some p /\ status p = Alive) /\
  (forall env p,
      running (self w) = true -> current_proc w = Some p -> status p <> Alive ->
      running (self (fst (fst (stream env w)))) = false /\
      last_error (self (fst (fst (stream env w)))) = "ffmpeg exited unexpectedly."%string /\
      sent (snd (fst (stream env w))) = false).
Proof.
  intros Hw. apply reachable_wf in Hw. split; [|split; [|split]].
  - intros Hr. destruct (running_handle w Hw Hr)
      as (pid & p & q & _ & _ & Hcur & Hs & Hc & Ht & _).
    exists p, q. auto.
  - intros env Hr Hr'. destruct (start_begins env w Hr Hr') as (img & _ & ->).
    eexists. unfold current_proc. cbn [self proc procs].
    rewrite nth_error_snoc. split; reflexivity.
  - intros env Hr'.
    destruct (running (self w)) eqn:Hr.
    2:{ rewrite stream_idle in Hr' by assumption. cbn [fst] in Hr'. congruence. }
    destruct (stream_cases env w Hw Hr)
      as (pid & p & q & Hp & Hn & Hcur & Hs & Hc & Hcases).
    destruct Hcases as [[_ Hst] | [(_ & _ & Hst) | (Ha & img & _ & Hst)]];
      rewrite Hst in Hr' |- *.
    + rewrite fail_and_stop_self in Hr' by assumption. discriminate.
    + rewrite fail_and_stop_self in Hr' by assumption. discriminate.
    + destruct (should_send img (e_now env) (last_send_time (self w))).
      * destruct (e_write env) as [[k e]|].
        { rewrite fail_and_stop_self in Hr' by assumption. discriminate. }
        exists (feed (to_u8 (pixels img)) p). unfold current_proc. cbn.
        rewrite Hp, nth_error_update_nth_same, Hn. split; [reflexivity | exact Ha].
      * exists p. split; assumption.
  - intros env p Hr Hcur Hna.
    destruct (stream_cases env w Hw Hr)
      as (pid & p' & q & Hp & Hn & Hcur' & Hs & Hc & Hcases).
    assert (p' = p) by congruence. subst p'.
    destruct Hcases as [[_ Hst] | [(Ha & _) | (Ha & _)]];
      [| contradiction | contradiction].
    rewrite Hst, fail_and_stop_self, fail_and_stop_sent by assumption.
    repeat split.
Qed.

(** ** The first tick of a session *)

Lemma sub_zero_gt (x : float64) :
  F64.gtb x KEEPALIVE_SECONDS = true -> F64.sub x (F64.of_Z 0) = x.
Proof.
  destruct x as [s|s| |s m e]; intros H; try reflexivity.
  destruct s; discriminate H.
Qed.

(** C9. A [start] that begins a session leaves [last_send_time] at 0.0, so
    on the first tick [now - last_send_time] is [now]: when the clock reads
    more than [KEEPALIVE_SECONDS] the tick reads the pixels and writes the
    frame whether or not the image is dirty, and when the write goes
    through, [frames_sent] is 1. *)
Theorem first_tick_sends (env0 env : Env) (w0 : World) (img : Image) :
  reachable any_event w0 ->
  running (self w0) = false ->
  let w1 := fst (start env0 w0) in
  running (self w1) = true ->
  e_image env = Some img ->
  F64.gtb (e_now env) KEEPALIVE_SECONDS = true ->
  last_send_time (self w1) = F64.of_Z 0 /\
  F64.gtb (F64.sub (e_now env) (last_send_time (self w1))) KEEPALIVE_SECONDS = true /\
  (exists pid rest,
      snd (fst (stream env w1))
      = [EPoll pid; EGetImage; ETime; EReadPixels; EWrite pid (to_u8 (pixels img))]
          ++ rest) /\
  (e_write env = None ->
   frames_sent (self (fst (fst (stream env w1)))) = 1 /\
   last_send_time (self (fst (fst (stream env w1)))) = e_now env /\
   snd (stream env w1) = Some period).
Proof.
  intros Hw0 Hr0 w1 Hr1 Hi Hnow.
  assert (Hwf : wf w1) by (apply wf_start, (reachable_wf _ _ Hw0)).
  destruct (start_begins env0 w0 Hr0 Hr1) as (img0 & _ & Hw1).
  fold w1 in Hw1.
  assert (Hlast : last_send_time (self w1) = F64.of_Z 0) by (rewrite Hw1; reflexivity).
  assert (Hfs : frames_sent (self w1) = 0) by (rewrite Hw1; reflexivity).
  assert (Hgt : F64.gtb (F64.sub (e_now env) (last_send_time (self w1)))
                        KEEPALIVE_SECONDS = true).
  { rewrite Hlast, sub_zero_gt; assumption. }
  split; [assumption|]. split; [assumption|].
  destruct (stream_cases env w1 Hwf Hr1)
    as (pid & p & q & Hp & Hn & Hcur & Hs & Hc & Hcases).
  assert (Ha : status p = Alive).
  { rewrite Hw1 in Hp, Hn. cbn [self proc procs] in Hp, Hn.
    injection Hp as <-. rewrite nth_error_snoc in Hn. injection Hn as <-. reflexivity. }
  destruct Hcases as [[Hna _] | [(_ & Hnone & _) | (_ & img' & Hi' & Hst)]];
    [contradiction | congruence |].
  assert (img' = img) by congruence. subst img'.
  assert (Hss : should_send img (e_now env) (last_send_time (self w1)) = true).
  { unfold should_send. rewrite Hgt. apply orb_true_r. }
  rewrite Hss in Hst. rewrite Hst. split.
  - destruct (e_write env) as [[k e]|].
    + rewrite fail_and_stop_trace. eexists pid, _. reflexivity.
    + exists pid, []. reflexivity.
  - intros ->. cbn. rewrite Hfs. repeat split.
Qed.

(** ** The byte stream of a session *)

Lemma length_to_u8 px : List.length (to_u8 px) = List.length px.
Proof. apply length_map. Qed.

Lemma length_concat_frames (n : Z) (frames : list (list Z)) :
  Forall (fun f => Z.of_nat (List.length f) = n) frames ->
  Z.of_nat (List.length (List.concat frames)) = Z.of_nat (List.length frames) * n.
Proof.
  induction 1 as [|f fs Hf Hfs IH]; [reflexivity|].
  cbn [List.concat List.length]. rewrite length_app. lia.
Qed.

Lemma framed_stream W H env w :
  wf w -> fixed_surface W H (Tick env) ->
  framed (W * H * 4) w -> framed (W * H * 4) (fst (fst (stream env w))).
Proof.
  intros Hwf Hfix Hfr Hr'.
  destruct (running (self w)) eqn:Hr.
  2:{ rewrite stream_idle in Hr' by assumption. cbn [fst] in Hr'. congruence. }
  destruct (Hfr Hr) as (p0 & q0 & frames & Hcur0 & Hs0 & Hd & Hlen & Hall).
  destruct (stream_cases env w Hwf Hr)
    as (pid & p & q & Hp & Hn & Hcur & Hs & Hc & Hcases).
  assert (p0 = p) by congruence. subst p0.
  assert (q0 = q) by congruence. subst q0.
  destruct Hcases as [[_ Hst] | [(_ & _ & Hst) | (Ha & img & Hi & Hst)]];
    rewrite Hst in Hr' |- *.
  - rewrite fail_and_stop_self in Hr' by assumption. discriminate.
  - rewrite fail_and_stop_self in Hr' by assumption. discriminate.
  - destruct (should_send img (e_now env) (last_send_time (self w))).
    + destruct (e_write env) as [[k e]|].
      { rewrite fail_and_stop_self in Hr' by assumption. discriminate. }
      exists (feed (to_u8 (pixels img)) p),
        {| closed := closed q; data := data q ++ to_u8 (pixels img) |},
        (frames ++ [to_u8 (pixels img)]).
      unfold current_proc. cbn [fst self procs with_self with_proc proc
                                  set_frames_sent set_last_send_time frames_sent].
      rewrite Hp, nth_error_update_nth_same, Hn. cbn [option_map feed stdin].
      rewrite Hs. cbn [option_map data].
      repeat split.
      * rewrite concat_app, Hd. cbn [List.concat]. rewrite app_nil_r. reflexivity.
      * rewrite length_app. cbn [List.length]. lia.
      * apply Forall_app. split; [assumption|]. constructor; [|constructor].
        rewrite length_to_u8. apply (Hfix img Hi).
    + exists p, q, frames. cbn [fst]. auto.
Qed.

Lemma framed_step W H ev w :
  wf w -> fixed_surface W H ev ->
  framed (W * H * 4) w -> framed (W * H * 4) (step ev w).
Proof.
  intros Hwf Hfix Hfr. destruct ev as [env|env|env|pid code]; cbn [step].
  - destruct (running (self w)) eqn:Hr.
    + unfold start. rewrite Hr. exact Hfr.
    + intros Hr'. destruct (start_begins env w Hr Hr') as (img & _ & ->).
      exists (popen (ffmpeg_cmd (fst (size img)) (snd (size img)))),
        {| closed := false; data := [] |}, [].
      unfold current_proc. cbn [self proc procs]. rewrite nth_error_snoc.
      repeat split. constructor.
  - intros Hr'. rewrite stop_not_running in Hr'. discriminate.
  - apply framed_stream; assumption.
  - intros Hr. cbn [self with_proc] in Hr.
    destruct (Hfr Hr) as (p & q & frames & Hcur & Hs & Hd & Hlen & Hall).
    unfold current_proc in Hcur |- *. cbn [self procs with_proc].
    destruct (proc (self w)) as [pid'|]; [|discriminate].
    destruct (Nat.eq_dec pid pid') as [->|Hne].
    + exists (child_exit code p), q, frames.
      rewrite nth_error_update_nth_same, Hcur. repeat split; try assumption.
      unfold child_exit. destruct (status p); assumption.
    + exists p, q, frames.
      rewrite nth_error_update_nth_other by assumption. auto.
Qed.

Lemma session_wf W H w : session W H w -> wf w.
Proof.
  induction 1 as [w0 env Hw0 Hr0 Hfix Hr1 | w ev Hw IH Hev].
  - apply wf_start, (reachable_wf _ _ Hw0).
  - apply wf_step, IH.
Qed.

Lemma session_framed W H w : session W H w -> framed (W * H * 4) w.
Proof.
  induction 1 as [w0 env Hw0 Hr0 Hfix Hr1 | w ev Hw IH Hev].
  - intros _. destruct (start_begins env w0 Hr0 Hr1) as (img & _ & ->).
    exists (popen (ffmpeg_cmd (fst (size img)) (snd (size img)))),
      {| closed := false; data := [] |}, [].
    unfold current_proc. cbn [self proc procs]. rewrite nth_error_snoc.
    repeat split. constructor.
  - apply framed_step; [apply (session_wf _ _ _ Hw) | assumption | assumption].
Qed.

(** C2. In a session that only ever sees an image of [W] x [H] pixels
    with [W*H*4] samples, while [running] is true the pipe of the child is
    the concatenation of [frames_sent] frames of [W*H*4] bytes each, with
    nothing between them, so it holds [frames_sent * W * H * 4] bytes; and
    a tick that writes and leaves the session running appends exactly the
    frame, [W*H*4] bytes, and adds one to [frames_sent]. *)
Theorem frames_are_contiguous (W H : Z) (w : World) :
  0 < W -> 0 < H ->
  session W H w ->
  running (self w) = true ->
  exists p q frames,
    current_proc w = Some p /\ stdin p = Some q /\
    data q = List.concat frames /\
    Z.of_nat (List.length frames) = frames_sent (self w) /\
    Forall (fun f => Z.of_nat (List.length f) = W * H * 4) frames /\
    Z.of_nat (List.length (data q)) = frames_sent (self w) * (W * H * 4) /\
    forall env img,
      fixed_surface W H (Tick env) ->
      e_image env = Some img ->
      let w' := fst (fst (stream env w)) in
      sent (snd (fst (stream env w))) = true ->
      running (self w') = true ->
      exists p' q',
        current_proc w' = Some p' /\ stdin p' = Some q' /\
        data q' = data q ++ to_u8 (pixels img) /\
        Z.of_nat (List.length (to_u8 (pixels img))) = W * H * 4 /\
        frames_sent (self w') = frames_sent (self w) + 1.
Proof.
  intros HW HH Hw Hr.
  destruct (session_framed W H w Hw Hr)
    as (p & q & frames & Hcur & Hs & Hd & Hlen & Hall).
  exists p, q, frames. repeat (split; [assumption|]). split.
  { rewrite Hd, (length_concat_frames _ _ Hall), Hlen. reflexivity. }
  intros env img Hfix Hi w' Hsent Hr'. subst w'.
  apply session_wf in Hw.
  destruct (stream_cases env w Hw Hr)
    as (pid & p0 & q0 & Hp & Hn & Hcur0 & Hs0 & Hc & Hcases).
  assert (p0 = p) by congruence. subst p0.
  assert (q0 = q) by congruence. subst q0.
  destruct Hcases as [[_ Hst] | [(_ & _ & Hst) | (Ha & img' & Hi' & Hst)]];
    rewrite Hst in Hr', Hsent |- *.
  - rewrite fail_and_stop_self in Hr' by assumption. discriminate.
  - rewrite fail_and_stop_self in Hr' by assumption. discriminate.
  - assert (img' = img) by congruence. subst img'.
    destruct (should_send img (e_now env) (last_send_time (self w))).
    2:{ discriminate Hsent. }
    destruct (e_write env) as [[k e]|].
    { rewrite fail_and_stop_self in Hr' by assumption. discriminate. }
    exists (feed (to_u8 (pixels img)) p),
      {| closed := closed q; data := data q ++ to_u8 (pixels img) |}.
    unfold current_proc. cbn [fst self procs with_self with_proc proc
                                set_frames_sent set_last_send_time frames_sent].
    rewrite Hp, nth_error_update_nth_same, Hn. cbn [option_map feed stdin].
    rewrite Hs. cbn [option_map data].
    repeat split. rewrite length_to_u8. apply (Hfix img Hi).
Qed.

(** ** Binary32 arithmetic *)

Lemma digits2_pos_bounds (m : positive) :
  2 ^ (Zpos (digits2_pos m) - 1) <= Zpos m < 2 ^ Zpos (digits2_pos m).
Proof.
  induction m as [p IH|p IH|]; cbn [digits2_pos].
  - rewrite Pos2Z.inj_succ.
    replace (Z.succ (Zpos (digits2_pos p)) - 1) with (Z.succ (Zpos (digits2_pos p) - 1)) by lia.
    rewrite !Z.pow_succ_r by lia. lia.
  - rewrite Pos2Z.inj_succ.
    replace (Z.succ (Zpos (digits2_pos p)) - 1) with (Z.succ (Zpos (digits2_pos p) - 1)) by lia.
    rewrite !Z.pow_succ_r by lia. lia.
  - cbn. lia.
Qed.

Lemma digits2_pos_le (m : positive) (k : Z) :
  Zpos m < 2 ^ k -> Zpos (digits2_pos m) <= k.
Proof.
  intros H. destruct (digits2_pos_bounds m) as [Hlo _].
  destruct (Z_le_gt_dec (Zpos (digits2_pos m)) k) as [|Hgt]; [assumption|].
  assert (2 ^ k <= 2 ^ (Zpos (digits2_pos m) - 1)) by (apply Z.pow_le_mono_r; lia).
  lia.
Qed.

Lemma digits2_pos_gt (m : positive) (k : Z) :
  2 ^ k <= Zpos m -> k < Zpos (digits2_pos m).
Proof.
  intros H. destruct (digits2_pos_bounds m) as [_ Hhi].
  destruct (Z_lt_le_dec k (Zpos (digits2_pos m))) as [|Hle]; [assumption|].
  assert (2 ^ Zpos (digits2_pos m) <= 2 ^ k) by (apply Z.pow_le_mono_r; lia).
  lia.
Qed.

(** Canonical binary32 mantissas, in numbers. *)
Lemma canonical_mantissa_iff (m : positive) (e : Z) :
  canonical_mantissa 24 128 m e = true <->
  -149 <= e /\ Zpos m < 2 ^ 24 /\ (-149 < e -> 2 ^ 23 <= Zpos m).
Proof.
  unfold canonical_mantissa, fexp, emin. rewrite Z.eqb_eq.
  pose proof (digits2_pos_bounds m) as [Hlo Hhi].
  remember (Zpos (digits2_pos m)) as d eqn:Hd.
  split.
  - intros H.
    assert (Hd24 : d <= 24) by lia.
    assert (2 ^ d <= 2 ^ 24) by (apply Z.pow_le_mono_r; lia).
    repeat split; try lia.
    intros He. assert (Heq : d = 24) by lia. rewrite Heq in Hlo. exact Hlo.
  - intros (He & Hm & Hn).
    assert (Hd24 : d <= 24) by (rewrite Hd; apply digits2_pos_le; assumption).
    destruct (Z.eq_dec e (-149)) as [->|Hne]; [lia|].
    assert (23 < d) by (rewrite Hd; apply digits2_pos_gt; apply Hn; lia).
    lia.
Qed.

Lemma shr_1_m (mrs : shr_record) :
  0 <= shr_m mrs -> shr_m (shr_1 mrs) = shr_m mrs / 2.
Proof.
  destruct mrs as [m r s]. cbn [shr_m]. intros Hm. unfold shr_1.
  destruct m as [|[p|p|]|p]; cbn [shr_m]; try lia; try reflexivity.
  - apply Z.div_unique with (r := 1); lia.
  - apply Z.div_unique with (r := 0); lia.
Qed.

Lemma iter_shr_1_m (p : positive) (mrs : shr_record) :
  0 <= shr_m mrs -> shr_m (iter_pos shr_1 p mrs) = shr_m mrs / 2 ^ Zpos p.
Proof.
  revert mrs. induction p as [p IH|p IH|]; intros mrs Hm; cbn [iter_pos].
  - assert (H1 : 0 <= shr_m (shr_1 mrs)).
    { rewrite shr_1_m by assumption. apply Z.div_pos; lia. }
    assert (H2 : 0 <= shr_m (iter_pos shr_1 p (shr_1 mrs))).
    { rewrite IH by assumption. apply Z.div_pos; [assumption|]. apply Z.pow_pos_nonneg; lia. }
    rewrite IH, IH, shr_1_m by assumption.
    assert (Hp : 0 < 2 ^ Zpos p) by (apply Z.pow_pos_nonneg; lia).
    rewrite !Z.div_div by lia.
    replace (Zpos p~1) with (1 + Zpos p + Zpos p) by lia.
    rewrite !Z.pow_add_r by lia. rewrite Z.pow_1_r, Z.mul_assoc. reflexivity.
  - assert (H2 : 0 <= shr_m (iter_pos shr_1 p mrs)).
    { rewrite IH by assumption. apply Z.div_pos; [assumption|]. apply Z.pow_pos_nonneg; lia. }
    rewrite IH, IH by assumption.
    assert (Hp : 0 < 2 ^ Zpos p) by (apply Z.pow_pos_nonneg; lia).
    rewrite !Z.div_div by lia.
    replace (Zpos p~0) with (Zpos p + Zpos p) by lia.
    rewrite !Z.pow_add_r by lia. reflexivity.
  - rewrite shr_1_m by assumption. reflexivity.
Qed.

(** [shr_fexp] divides the mantissa by the power of two that brings the
    exponent up to the format's. *)
Lemma shr_fexp_spec (m e : Z) (l : location) :
  0 <= m ->
  let n := fexp 24 128 (Zdigits2 m + e) - e in
  shr_m (fst (shr_fexp 24 128 m e l)) = m / 2 ^ Z.max 0 n /\
  snd (shr_fexp 24 128 m e l) = e + Z.max 0 n.
Proof.
  intros Hm n. unfold shr_fexp. fold n.
  assert (Hrec : shr_m (shr_record_of_loc m l) = m).
  { destruct l as [|[]]; reflexivity. }
  unfold shr. destruct n as [|p|p]; cbn [fst snd].
  - rewrite Hrec. cbn. rewrite Z.div_1_r. lia.
  - rewrite iter_shr_1_m by (rewrite Hrec; assumption).
    rewrite Hrec. rewrite Z.max_r by lia. split; reflexivity.
  - rewrite Hrec. cbn. rewrite Z.div_1_r. lia.
Qed.

Lemma round_nearest_even_cases (m : Z) (l : location) :
  round_nearest_even m l = m \/ round_nearest_even m l = m + 1.
Proof.
  unfold round_nearest_even. destruct l as [|[]]; auto.
  destruct (Z.even m); auto.
Qed.

Lemma valid_finite_bounds (s : bool) (m : positive) (e : Z) :
  F32.valid (S754_finite s m e) = true ->
  -149 <= e /\ Zpos m < 2 ^ 24 /\ (-149 < e -> 2 ^ 23 <= Zpos m).
Proof.
  unfold F32.valid, F32.prec, F32.emax. cbn [valid_binary]. unfold bounded.
  intros H. apply andb_prop in H. apply canonical_mantissa_iff, H.
Qed.

Lemma valid_rounded (sx : bool) (m e : Z) :
  0 <= m ->
  (0 < m -> -149 <= e /\ m < 2 ^ 24 /\ (-149 < e -> 2 ^ 23 <= m)) ->
  let r := match m with
           | Z0 => S754_zero sx
           | Zpos p => if e <=? 128 - 24 then S754_finite sx p e else S754_infinity sx
           | Zneg _ => S754_nan
           end in
  valid_binary 24 128 r = true /\ is_nan r = false.
Proof.
  intros H0 H. cbv zeta. destruct m as [|p|p]; [split; reflexivity | | lia].
  destruct (e <=? 128 - 24) eqn:He; [|split; reflexivity].
  split; [|reflexivity].
  cbn [valid_binary]. unfold bounded. rewrite He, andb_true_r.
  apply canonical_mantissa_iff. apply H. lia.
Qed.

(** Rounding a mantissa that has bits to spare gives a canonical float, an
    infinity or a zero. *)
Lemma binary_round_aux_valid (sx : bool) (M : positive) (ex : Z) :
  0 < fexp 24 128 (Zpos (digits2_pos M) + ex) - ex ->
  valid_binary 24 128 (binary_round_aux 24 128 sx (Zpos M) ex loc_Exact) = true /\
  is_nan (binary_round_aux 24 128 sx (Zpos M) ex loc_Exact) = false.
Proof.
  intros Hn. unfold binary_round_aux.
  destruct (shr_fexp_spec (Zpos M) ex loc_Exact) as [Hm1 He1]; [lia|].
  destruct (shr_fexp 24 128 (Zpos M) ex loc_Exact) as [mrs1 e1].
  cbn [fst snd] in Hm1, He1. cbn [Zdigits2] in Hm1, He1.
  remember (fexp 24 128 (Zpos (digits2_pos M) + ex) - ex) as n eqn:Hndef.
  rewrite Z.max_r in Hm1, He1 by lia.
  destruct (digits2_pos_bounds M) as [Hlo Hhi].
  remember (Zpos (digits2_pos M)) as D eqn:HD.
  assert (HD0 : 0 < D) by (rewrite HD; lia).
  unfold fexp, emin in Hndef.
  assert (Hpn : 0 < 2 ^ n) by (apply Z.pow_pos_nonneg; lia).
  assert (Hb1 : 0 <= shr_m mrs1 < 2 ^ 24).
  { rewrite Hm1. split; [apply Z.div_pos; lia|].
    apply Z.div_lt_upper_bound; [assumption|].
    rewrite <- Z.pow_add_r by lia.
    assert (2 ^ D <= 2 ^ (n + 24)) by (apply Z.pow_le_mono_r; lia). lia. }
  assert (Hb2 : -149 < e1 -> 2 ^ 23 <= shr_m mrs1).
  { intros He. rewrite Hm1. apply Z.div_le_lower_bound; [assumption|].
    rewrite <- Z.pow_add_r by lia.
    replace (n + 23) with (D - 1) by lia. assumption. }
  assert (He1' : -149 <= e1) by lia.
  remember (round_nearest_even (shr_m mrs1) (loc_of_shr_record mrs1)) as mr eqn:Hmr.
  assert (Hr : mr = shr_m mrs1 \/ mr = shr_m mrs1 + 1).
  { rewrite Hmr. apply round_nearest_even_cases. }
  destruct (shr_fexp_spec mr e1 loc_Exact) as [Hm2 He2]; [lia|].
  destruct (shr_fexp 24 128 mr e1 loc_Exact) as [mrs2 e2].
  cbn [fst snd] in Hm2, He2.
  apply valid_rounded.
  { rewrite Hm2. apply Z.div_pos; [lia|]. apply Z.pow_pos_nonneg; lia. }
  intros Hpos.
  unfold fexp, emin in Hm2, He2.
  destruct (Z.eq_dec mr (2 ^ 24)) as [Htop|Hntop].
  - rewrite Htop in Hm2, He2.
    change (Zdigits2 (2 ^ 24)) with 25 in Hm2, He2.
    replace (Z.max 0 (Z.max (25 + e1 - 24) (3 - 128 - 24) - e1)) with 1 in Hm2, He2 by lia.
    change (2 ^ 24 / 2 ^ 1) with (2 ^ 23) in Hm2.
    rewrite Hm2, He2. lia.
  - assert (Hlt : mr < 2 ^ 24) by lia.
    destruct mr as [|q|q]; try lia.
    + rewrite Hm2 in Hpos. cbn [Zdigits2] in Hpos.
      rewrite Z.max_l in Hpos by lia. cbn in Hpos. lia.
    + cbn [Zdigits2] in Hm2, He2.
      assert (Zpos (digits2_pos q) <= 24) by (apply digits2_pos_le; assumption).
      rewrite Z.max_l in Hm2, He2 by lia.
      change (2 ^ 0) with 1 in Hm2. rewrite Z.div_1_r in Hm2.
      rewrite Hm2, He2. lia.
Qed.

(** The product of a binary32 number and 255.0 is a binary32 number, and
    a NaN only if the number was. *)
Lemma mul_255_valid (s : float32) :
  F32.valid s = true ->
  F32.valid (F32.mul s (F32.of_Z 255)) = true /\
  (is_nan s = false -> is_nan (F32.mul s (F32.of_Z 255)) = false).
Proof.
  intros Hv. change (F32.of_Z 255) with (S754_finite false 16711680 (-16)).
  destruct s as [s|s| |s m e]; try (split; [reflexivity | intros H; exact H]).
  apply valid_finite_bounds in Hv. destruct Hv as (He & Hm & Hn).
  unfold F32.valid, F32.mul, F32.prec, F32.emax, SFmul.
  assert (Hsh : 0 < fexp 24 128 (Zpos (digits2_pos (m * 16711680)) + (e + -16))
                    - (e + -16)).
  { unfold fexp, emin.
    destruct (Z.eq_dec e (-149)) as [->|Hne]; [lia|].
    assert (46 < Zpos (digits2_pos (m * 16711680))).
    { apply digits2_pos_gt. rewrite Pos2Z.inj_mul.
      assert (2 ^ 23 <= Zpos m) by (apply Hn; lia).
      change (2 ^ 46) with (2 ^ 23 * 2 ^ 23). change (2 ^ 23) with 8388608 in *. lia. }
    lia. }
  destruct (binary_round_aux_valid (xorb s false) (m * 16711680) (e + -16) Hsh)
    as [H1 H2].
  split; [exact H1 | intros _; exact H2].
Qed.

Lemma clamp_lo (q : Q) : (q <= 0)%Q -> clamp 0 255 q = 0%Q.
Proof.
  intros H. unfold clamp. apply Qle_bool_iff in H. rewrite H. reflexivity.
Qed.

Lemma clamp_hi (q : Q) : (255 <= q)%Q -> clamp 0 255 q = 255%Q.
Proof.
  intros H. unfold clamp.
  destruct (Qle_bool q 0) eqn:H0.
  - apply Qle_bool_iff in H0. exfalso.
    assert (255 <= 0)%Q by (eapply Qle_trans; eassumption).
    revert H1. unfold Qle. cbn. lia.
  - apply Qle_bool_iff in H. rewrite H. reflexivity.
Qed.

Lemma clamp_mid (q : Q) : (0 < q)%Q -> (q < 255)%Q -> clamp 0 255 q = q.
Proof.
  intros H0 H1. unfold clamp.
  destruct (Qle_bool q 0) eqn:Ha.
  { apply Qle_bool_iff in Ha. exfalso. apply (Qlt_not_le _ _ H0 Ha). }
  destruct (Qle_bool 255 q) eqn:Hb.
  { apply Qle_bool_iff in Hb. exfalso. apply (Qlt_not_le _ _ H1 Hb). }
  reflexivity.
Qed.

Lemma Zpos_pow2 (k : Z) : 0 < k -> Zpos (2 ^ Z.to_pos k) = 2 ^ k.
Proof.
  intros Hk. rewrite Pos2Z.inj_pow, Z2Pos.id by assumption. reflexivity.
Qed.

Lemma SFltb_255 (m : positive) (e : Z) :
  SFltb (S754_finite false m e) (S754_finite false 16711680 (-16))
  = (e <? -16) || ((e =? -16) && (Zpos m <? 16711680)).
Proof.
  unfold SFltb, SFcompare.
  rewrite Pos.compare_cont_spec. cbn [Pos.switch_Eq].
  destruct (Z.compare_spec e (-16)) as [He|He|He].
  - subst e. change (-16 <? -16) with false. change (-16 =? -16) with true.
    cbn [orb andb]. unfold Z.ltb. cbn [Z.compare].
    destruct (m ?= 16711680)%positive; reflexivity.
  - rewrite (proj2 (Z.ltb_lt e (-16)) He). reflexivity.
  - rewrite (proj2 (Z.ltb_ge e (-16))), (proj2 (Z.eqb_neq e (-16))) by lia.
    reflexivity.
Qed.

Lemma trunc_small (m : positive) (e : Z) :
  e < 0 ->
  trunc (S754_finite false m e) = Qfloor (SF2Q (S754_finite false m e)) /\
  trunc (S754_finite false m e) = Zpos m / 2 ^ (- e).
Proof.
  intros He. unfold trunc, SF2Q. cbn [cond_Zopp].
  assert (Hlt : (e <? 0) = true) by (apply Z.ltb_lt; assumption). rewrite Hlt.
  cbn [Qfloor]. rewrite Zpos_pow2 by lia.
  rewrite Z.shiftl_div_pow2 by lia. split; reflexivity.
Qed.

Lemma pow2_ge_1 (k : Z) : 0 <= k -> 1 <= 2 ^ k.
Proof.
  intros Hk. change 1 with (2 ^ 0). apply Z.pow_le_mono_r; lia.
Qed.

(** The real value of a positive float against the bound 255. *)
Lemma SF2Q_below (m : positive) (e : Z) :
  Zpos m < 2 ^ 24 ->
  e < -16 \/ (e = -16 /\ Zpos m < 16711680) ->
  (0 < SF2Q (S754_finite false m e))%Q /\
  (SF2Q (S754_finite false m e) < 255)%Q /\
  0 <= Zpos m / 2 ^ (- e) < 255.
Proof.
  intros Hm Hc.
  assert (He : e < 0) by lia.
  assert (Hp : 0 < 2 ^ (- e)) by (apply Z.pow_pos_nonneg; lia).
  assert (Hb : Zpos m < 255 * 2 ^ (- e)).
  { destruct Hc as [Hlt | [-> Hlt]].
    - assert (2 ^ 17 <= 2 ^ (- e)) by (apply Z.pow_le_mono_r; lia).
      change (2 ^ 17) with 131072 in *. change (2 ^ 24) with 16777216 in *. lia.
    - change (2 ^ (- -16)) with 65536. lia. }
  unfold SF2Q. rewrite (proj2 (Z.ltb_lt e 0) He). cbn [cond_Zopp].
  unfold Qlt. cbn [Qnum Qden]. rewrite Zpos_pow2 by lia.
  repeat split; try lia.
  - apply Z.div_pos; lia.
  - apply Z.div_lt_upper_bound; lia.
Qed.

Lemma SF2Q_above (m : positive) (e : Z) :
  (-149 < e -> 2 ^ 23 <= Zpos m) ->
  -16 < e \/ (e = -16 /\ 16711680 <= Zpos m) ->
  (255 <= SF2Q (S754_finite false m e))%Q.
Proof.
  intros Hn Hc. unfold SF2Q. cbn [cond_Zopp].
  destruct (e <? 0) eqn:He.
  - apply Z.ltb_lt in He. unfold Qle. cbn [Qnum Qden]. rewrite Zpos_pow2 by lia.
    destruct Hc as [Hgt | [-> Hge]].
    + assert (2 ^ (- e) <= 2 ^ 15) by (apply Z.pow_le_mono_r; lia).
      assert (2 ^ 23 <= Zpos m) by (apply Hn; lia).
      change (2 ^ 15) with 32768 in *. change (2 ^ 23) with 8388608 in *. lia.
    + change (2 ^ (- -16)) with 65536. lia.
  - apply Z.ltb_ge in He. unfold Qle. cbn [Qnum Qden inject_Z].
    assert (1 <= 2 ^ e) by (apply pow2_ge_1; assumption).
    assert (2 ^ 23 <= Zpos m) by (apply Hn; lia).
    change (2 ^ 23) with 8388608 in *. nia.
Qed.

Lemma SF2Q_negative (m : positive) (e : Z) :
  (SF2Q (S754_finite true m e) <= 0)%Q.
Proof.
  unfold SF2Q. cbn [cond_Zopp]. destruct (e <? 0) eqn:He.
  - unfold Qle. cbn [Qnum Qden]. lia.
  - apply Z.ltb_ge in He. unfold Qle. cbn [Qnum Qden inject_Z].
    assert (1 <= 2 ^ e) by (apply pow2_ge_1; assumption). nia.
Qed.

(** The byte that clip and the cast give is the floor of the clipped value. *)
Lemma clip_cast_floor (x : float32) :
  F32.valid x = true -> is_nan x = false ->
  astype_uint8 (np_clip x (F32.of_Z 0) (F32.of_Z 255)) = Qfloor (clipped_value x).
Proof.
  intros Hv Hnan.
  change (F32.of_Z 0) with (S754_zero false).
  change (F32.of_Z 255) with (S754_finite false 16711680 (-16)).
  destruct x as [s|s| |s m e].
  - destruct s; reflexivity.
  - destruct s; reflexivity.
  - discriminate Hnan.
  - apply valid_finite_bounds in Hv. destruct Hv as (He & Hm & Hn).
    destruct s.
    + unfold clipped_value. rewrite clamp_lo by apply SF2Q_negative. reflexivity.
    + unfold np_clip, np_max. cbn [is_nan].
      change (SFltb (S754_zero false) (S754_finite false m e)) with true. cbv iota.
      unfold np_min. cbn [is_nan]. rewrite SFltb_255. unfold clipped_value.
      destruct ((e <? -16) || (e =? -16) && (Zpos m <? 16711680)) eqn:Hc.
      * assert (Hc' : e < -16 \/ (e = -16 /\ Zpos m < 16711680)).
        { apply orb_prop in Hc. destruct Hc as [Hc|Hc].
          - left. apply Z.ltb_lt, Hc.
          - right. apply andb_prop in Hc. destruct Hc as [H1 H2].
            split; [apply Z.eqb_eq, H1 | apply Z.ltb_lt, H2]. }
        destruct (SF2Q_below m e Hm Hc') as (H0 & H255 & Hdiv).
        rewrite clamp_mid by assumption.
        destruct (trunc_small m e) as [Hfl Htr]; [lia|].
        unfold astype_uint8. rewrite <- Hfl, Htr.
        apply Z.mod_small. lia.
      * assert (Hc' : -16 < e \/ (e = -16 /\ 16711680 <= Zpos m)).
        { apply orb_false_elim in Hc. destruct Hc as [H1 H2].
          apply Z.ltb_ge in H1. apply andb_false_elim in H2.
          destruct H2 as [H2|H2].
          - left. apply Z.eqb_neq in H2. lia.
          - apply Z.ltb_ge in H2. destruct (Z.eq_dec e (-16)); [right | left]; lia. }
        rewrite clamp_hi by (apply SF2Q_above; assumption). reflexivity.
Qed.

(** ** The bytes of a frame *)

Lemma quantize_floor (s : float32) :
  F32.valid s = true -> is_nan s = false ->
  quantize s = Qfloor (clipped_value (F32.mul s (F32.of_Z 255))).
Proof.
  intros Hv Hn. destruct (mul_255_valid s Hv) as [Hv' Hn'].
  unfold quantize. apply clip_cast_floor; auto.
Qed.

Lemma write_in_trace pid bytes tr : In (EWrite pid bytes) tr -> sent tr = true.
Proof.
  intros H. apply existsb_exists. exists (EWrite pid bytes).
  split; [exact H | reflexivity].
Qed.

Lemma in_fail_and_stop env pre msg w pid bytes :
  In (EWrite pid bytes) (snd (fst (fail_and_stop env pre msg w))) ->
  In (EWrite pid bytes) pre.
Proof.
  rewrite fail_and_stop_trace. intros H. apply in_app_or in H.
  destruct H as [H | [H | H]]; [exact H | discriminate H |].
  apply write_in_trace in H. rewrite (proj1 (stop_trace env _)) in H. discriminate H.
Qed.

Ltac pick_write H :=
  simpl in H;
  repeat (destruct H as [H | H]; try discriminate H);
  try contradiction;
  try (injection H as _ <-; reflexivity).

(** Whatever a tick writes is the quantised pixel array of the image. *)
Lemma stream_write_bytes env w img pid bytes :
  e_image env = Some img ->
  In (EWrite pid bytes) (snd (fst (stream env w))) ->
  bytes = to_u8 (pixels img).
Proof.
  intros Hi. unfold stream. rewrite Hi.
  destruct (running (self w)); cbn [negb]; [|intros H; pick_write H].
  destruct (proc (self w)) as [pid0|].
  2:{ destruct (proc_exited _); [intros H; apply in_fail_and_stop in H; pick_write H|].
      destruct (should_send _ _ _); cbn [negb]; intros H;
        [apply in_fail_and_stop in H|]; pick_write H. }
  destruct (proc_exited _); [intros H; apply in_fail_and_stop in H; pick_write H|].
  destruct (should_send _ _ _); cbn [negb]; [|intros H; pick_write H].
  destruct (has_stdin w pid0); cbn [negb];
    [|intros H; apply in_fail_and_stop in H; pick_write H].
  destruct (e_write env) as [[k e]|]; intros H;
    [apply in_fail_and_stop in H|]; pick_write H.
Qed.

(** C1, as the code has it.  Each byte a tick writes is the binary32
    product of the sample and 255.0, clamped to the interval from 0 to 255
    and cut down to its integer part: the floor, not the nearest integer.
    This holds for every binary32 sample that is not a NaN. *)
Theorem frame_bytes_truncate (env : Env) (w : World) (img : Image)
        (pid : nat) (bytes : list Z) (i : nat) (s : float32) :
  e_image env = Some img ->
  In (EWrite pid bytes) (snd (fst (stream env w))) ->
  nth_error (pixels img) i = Some s ->
  F32.valid s = true -> is_nan s = false ->
  nth_error bytes i
  = Some (Qfloor (clipped_value (F32.mul s (F32.of_Z 255)))).
Proof.
  intros Hi Hw Hs Hv Hn.
  rewrite (stream_write_bytes env w img pid bytes Hi Hw).
  unfold to_u8. rewrite nth_error_map, Hs. cbn [option_map].
  rewrite quantize_floor by assumption. reflexivity.
Qed.

(** * More of the code: the other paths of [start], [stop] and [stream] *)

(** ** Every way a tick can end *)

Lemma stream_shape env w :
  running (self w) = true ->
  (exists pre msg w0,
      stream env w = fail_and_stop env pre msg w0 /\
      msg <> EmptyString /\ self w0 = self w /\ sent pre = sent (snd (fst (stream env w))))
  \/ (exists t, stream env w = ((w, t), Some period) /\ sent t = false)
  \/ (exists pid img t,
         proc (self w) = Some pid /\ e_image env = Some img /\
         stream env w
         = ((with_self (fun s => set_frames_sent (frames_sent s + 1)
                                   (set_last_send_time (e_now env) s))
                       (with_proc pid (feed (to_u8 (pixels img))) w), t),
            Some period) /\ sent t = true).
Proof.
  intros Hr. unfold stream. rewrite Hr. cbn [negb].
  destruct (proc_exited w).
  { left. eexists _, _, w. rewrite fail_and_stop_sent.
    repeat split. discriminate. }
  destruct (e_image env) as [img|].
  2:{ left. eexists _, _, w. rewrite fail_and_stop_sent.
      repeat split. discriminate. }
  destruct (should_send img (e_now env) (last_send_time (self w))); cbn [negb].
  2:{ right. left. eexists. split; [reflexivity|].
      destruct (proc (self w)); reflexivity. }
  destruct (proc (self w)) as [pid|] eqn:Hp.
  2:{ left. eexists _, _, w. rewrite fail_and_stop_sent.
      repeat split. discriminate. }
  destruct (has_stdin w pid); cbn [negb].
  2:{ left. eexists _, _, w. rewrite fail_and_stop_sent.
      repeat split. discriminate. }
  destruct (e_write env) as [[k e]|].
  - left. eexists _, _, (with_proc pid (feed (firstn k (to_u8 (pixels img)))) w).
    rewrite fail_and_stop_sent. repeat split. discriminate.
  - right. right. exists pid, img. eexists. repeat split.
Qed.

(** X1. A tick returns [None], which takes the timer off the schedule,
    exactly when it leaves [running] false; any other return value is the
    period [1.0 / STREAM_FPS]. *)
Theorem tick_reschedules_iff_running (env : Env) (w : World) :
  (snd (stream env w) = None <-> running (self (fst (fst (stream env w)))) = false) /\
  (forall t, snd (stream env w) = Some t ->
             t = F64.div (F64.of_Z 1) (F64.of_Z STREAM_FPS) /\
             running (self (fst (fst (stream env w)))) = true).
Proof.
  destruct (running (self w)) eqn:Hr.
  - destruct (stream_shape env w Hr)
      as [(pre & msg & w0 & Hst & _ & Hs & _) | [(t & Hst & _) | (pid & img & t & _ & _ & Hst & _)]];
      rewrite Hst.
    + assert (Hr0 : running (self w0) = true) by (rewrite Hs; exact Hr).
      rewrite fail_and_stop_self by assumption. cbn [snd fail_and_stop].
      split; [split; reflexivity | intros t Ht; discriminate Ht].
    + cbn [fst snd]. rewrite Hr. split.
      * split; intros H; discriminate H.
      * intros t' Ht. injection Ht as <-. split; reflexivity.
    + cbn [fst snd self with_self with_proc running set_frames_sent set_last_send_time].
      rewrite Hr. split.
      * split; intros H; discriminate H.
      * intros t' Ht. injection Ht as <-. split; reflexivity.
  - rewrite stream_idle by assumption. cbn [fst snd]. rewrite Hr.
    split; [split; reflexivity | intros t Ht; discriminate Ht].
Qed.

(** X2. A tick never stops a session silently: when [running] goes from
    true to false in a tick, the tick has recorded a non-empty error, the
    status reads "Error", the handle is dropped and the tick returns
    [None]. *)
Theorem tick_stops_only_with_error (env : Env) (w : World) :
  running (self w) = true ->
  running (self (fst (fst (stream env w)))) = false ->
  last_error (self (fst (fst (stream env w)))) <> EmptyString /\
  status_text (self (fst (fst (stream env w)))) = "Error"%string /\
  proc (self (fst (fst (stream env w)))) = None /\
  snd (stream env w) = None.
Proof.
  intros Hr Hr'.
  destruct (stream_shape env w Hr)
    as [(pre & msg & w0 & Hst & Hmsg & Hs & _) | [(t & Hst & _) | (pid & img & t & _ & _ & Hst & _)]];
    rewrite Hst in Hr' |- *.
  - assert (Hr0 : running (self w0) = true) by (rewrite Hs; exact Hr).
    rewrite fail_and_stop_self by assumption.
    unfold status_text. cbn [last_error set_proc set_running set_last_error proc].
    destruct msg; [contradiction|]. repeat split. discriminate.
  - cbn [fst] in Hr'. congruence.
  - cbn [fst self with_self with_proc running set_frames_sent set_last_send_time] in Hr'.
    congruence.
Qed.

(** ** Teardown *)

Lemma teardown_entry (r : bool) (p : Process) (q : Pipe) :
  stdin p = Some q ->
  stdin (terminate r (close_pipe p)) = Some {| closed := true; data := data q |} /\
  argv (terminate r (close_pipe p)) = argv p /\
  (r = false -> status (terminate r (close_pipe p)) <> Alive) /\
  (status p <> Alive -> status (terminate r (close_pipe p)) = status p) /\
  (r = true -> status (terminate r (close_pipe p)) = status p).
Proof.
  intros Hs. unfold terminate, close_pipe. cbn [status stdin argv].
  destruct r, (status p) eqn:Hst; cbn [status stdin argv]; rewrite ?Hs, ?Hst;
    cbn [option_map]; repeat split; intros; try reflexivity;
    try discriminate; try congruence.
Qed.

Lemma stop_procs env w pid :
  running (self w) = true -> proc (self w) = Some pid ->
  procs (fst (stop env w))
  = update_nth pid (terminate (e_terminate_raises env))
      (update_nth pid close_pipe (procs w)).
Proof.
  intros Hr Hp. unfold stop. rewrite Hr. cbn [negb]. cbv zeta.
  cbn [self with_self].
  change (proc (set_running false (self w))) with (proc (self w)).
  rewrite Hp. reflexivity.
Qed.

Lemma stop_trace_running env w pid :
  running (self w) = true -> proc (self w) = Some pid -> has_stdin w pid = true ->
  snd (stop env w) = [EClose pid; ETerminate pid; EPrint "Streaming stopped"%string].
Proof.
  intros Hr Hp Hs. unfold stop. rewrite Hr. cbn [negb]. cbv zeta.
  cbn [self with_self].
  change (proc (set_running false (self w))) with (proc (self w)).
  rewrite Hp. cbn [snd].
  change (has_stdin (with_self (set_running false) w) pid) with (has_stdin w pid).
  rewrite Hs. reflexivity.
Qed.

(** X5. [stop] on a running session closes the pipe of the child without
    touching the bytes in it, calls [terminate], drops the handle and clears
    [running]; the recorded error and the counters stay as they were.
    [terminate] only sends the signal: a child that had not exited is
    marked as signalled, unless the call raised, and nothing waits for it
    to die; a child that had exited keeps its exit code.  So [poll] answers
    after [stop] what it answered before: a child that ran when [stop] was
    called is not known to have died when [stop] returns. *)
Theorem stop_tears_down (env : Env) (w : World) (pid : nat) (p : Process) (q : Pipe) :
  running (self w) = true ->
  proc (self w) = Some pid ->
  nth_error (procs w) pid = Some p ->
  stdin p = Some q ->
  let w' := fst (stop env w) in
  self w' = {| proc := None; running := false; last_error := last_error (self w);
               last_send_time := last_send_time (self w);
               frames_sent := frames_sent (self w) |} /\
  snd (stop env w) = [EClose pid; ETerminate pid; EPrint "Streaming stopped"%string] /\
  exists p',
    nth_error (procs w') pid = Some p' /\
    stdin p' = Some {| closed := true; data := data q |} /\
    (e_terminate_raises env = false -> status p = Alive -> status p' = Terminated) /\
    (e_terminate_raises env = true -> status p' = status p) /\
    (status p <> Alive -> status p' = status p) /\
    poll p' = poll p.
Proof.
  intros Hr Hp Hn Hs. cbv zeta.
  assert (Hh : has_stdin w pid = true).
  { unfold has_stdin. rewrite Hn, Hs. reflexivity. }
  split; [|split].
  - rewrite stop_self by assumption. reflexivity.
  - apply stop_trace_running; assumption.
  - rewrite (stop_procs env w pid Hr Hp).
    exists (terminate (e_terminate_raises env) (close_pipe p)).
    rewrite !nth_error_update_nth_same, Hn.
    destruct (teardown_entry (e_terminate_raises env) p q Hs) as (H1 & _ & _ & H4 & H5).
    repeat split; try assumption.
    + intros Hq Ha. rewrite Hq. unfold terminate, close_pipe. cbn [status].
      rewrite Ha. reflexivity.
    + unfold poll, terminate, close_pipe. cbn [status].
      destruct (e_terminate_raises env), (status p) eqn:Hst; cbn [status];
        rewrite ?Hst; reflexivity.
Qed.

Lemma fail_and_stop_read_pixels env pre msg w :
  read_pixels (snd (fst (fail_and_stop env pre msg w))) = read_pixels pre.
Proof.
  rewrite fail_and_stop_trace, read_pixels_app. cbn [read_pixels existsb].
  change (existsb _ ?t) with (read_pixels t).
  rewrite (proj2 (stop_trace env _)). rewrite orb_false_r. reflexivity.
Qed.

(** X3. A tick of a running session that finds the image gone records
    "Image missing: PaintTexture", stops the session as [stop] does (pipe
    closed with its bytes kept, child terminated unless [terminate] raised),
    reads no pixels, writes nothing, leaves [frames_sent] alone and returns
    [None]. *)
Theorem tick_image_missing (env : Env) (w : World) (p : Process) :
  reachable any_event w ->
  running (self w) = true ->
  current_proc w = Some p -> status p = Alive ->
  e_image env = None ->
  let w' := fst (fst (stream env w)) in
  let tr := snd (fst (stream env w)) in
  last_error (self w') = "Image missing: PaintTexture"%string /\
  running (self w') = false /\ proc (self w') = None /\
  frames_sent (self w') = frames_sent (self w) /\
  snd (stream env w) = None /\
  sent tr = false /\ read_pixels tr = false /\
  exists pid q p',
    proc (self w) = Some pid /\ stdin p = Some q /\
    nth_error (procs w') pid = Some p' /\
    stdin p' = Some {| closed := true; data := data q |} /\
    (e_terminate_raises env = false -> status p' = Terminated).
Proof.
  intros Hw Hr Hcur Ha Hi. cbv zeta. apply reachable_wf in Hw.
  destruct (stream_cases env w Hw Hr)
    as (pid & p0 & q & Hp & Hn & Hcur0 & Hs & Hc & Hcases).
  assert (p0 = p) by congruence. subst p0.
  destruct Hcases as [[Hna _] | [(_ & _ & Hst) | (_ & img & Hi' & _)]];
    [contradiction | | congruence].
  rewrite Hst.
  rewrite fail_and_stop_self, fail_and_stop_sent, fail_and_stop_read_pixels,
    (fail_and_stop_procs env _ _ w pid) by assumption.
  repeat split.
  exists pid, q, (terminate (e_terminate_raises env) (close_pipe p)).
  rewrite !nth_error_update_nth_same, Hn.
  destruct (teardown_entry (e_terminate_raises env) p q Hs) as (H1 & _ & _ & _ & _).
  repeat split; try assumption.
  intros Hq. rewrite Hq. unfold terminate, close_pipe. cbn [status].
  rewrite Ha. reflexivity.
Qed.

(** X4. A tick whose [write] raises records "Write failed: " followed by
    the message of the exception and stops the session: [running] false,
    handle dropped, [None] returned.  [frames_sent] and [last_send_time]
    keep the values they had, and the pipe, now closed, holds the old bytes
    and whatever part of the frame got through. *)
Theorem tick_write_fails (env : Env) (w : World) (p : Process) (img : Image)
        (k : nat) (e : string) :
  reachable any_event w ->
  running (self w) = true ->
  current_proc w = Some p -> status p = Alive ->
  e_image env = Some img ->
  should_send img (e_now env) (last_send_time (self w)) = true ->
  e_write env = Some (k, e) ->
  let w' := fst (fst (stream env w)) in
  last_error (self w') = ("Write failed: " ++ e)%string /\
  running (self w') = false /\ proc (self w') = None /\
  frames_sent (self w') = frames_sent (self w) /\
  last_send_time (self w') = last_send_time (self w) /\
  snd (stream env w) = None /\
  exists pid q p',
    proc (self w) = Some pid /\ stdin p = Some q /\
    nth_error (procs w') pid = Some p' /\
    stdin p' = Some {| closed := true;
                       data := data q ++ firstn k (to_u8 (pixels img)) |}.
Proof.
  intros Hw Hr Hcur Ha Hi Hss Hwr. cbv zeta. apply reachable_wf in Hw.
  destruct (stream_cases env w Hw Hr)
    as (pid & p0 & q & Hp & Hn & Hcur0 & Hs & Hc & Hcases).
  assert (p0 = p) by congruence. subst p0.
  destruct Hcases as [[Hna _] | [(_ & Hnone & _) | (_ & img' & Hi' & Hst)]];
    [contradiction | congruence |].
  assert (img' = img) by congruence. subst img'.
  rewrite Hss, Hwr in Hst. rewrite Hst.
  set (w1 := with_proc pid (feed (firstn k (to_u8 (pixels img)))) w).
  assert (Hr1 : running (self w1) = true) by exact Hr.
  assert (Hp1 : proc (self w1) = Some pid) by exact Hp.
  rewrite fail_and_stop_self, (fail_and_stop_procs env _ _ w1 pid) by assumption.
  repeat split.
  exists pid, q,
    (terminate (e_terminate_raises env)
       (close_pipe (feed (firstn k (to_u8 (pixels img))) p))).
  unfold w1. cbn [procs with_proc].
  rewrite !nth_error_update_nth_same, Hn. cbn [option_map].
  repeat split; try assumption.
  apply (teardown_entry _ (feed (firstn k (to_u8 (pixels img))) p)
           {| closed := closed q; data := data q ++ firstn k (to_u8 (pixels img)) |}).
  cbn [feed stdin]. rewrite Hs. reflexivity.
Qed.

(** ** The other ways [start] ends *)

(** X6. With a good image but no ffmpeg in the path, [start] asks
    [shutil.which], records that ffmpeg was not found, and goes no
    further: [Popen] is not called, no timer is registered, the process
    table is as it was and [running] stays false. *)
Theorem start_without_ffmpeg (env : Env) (w : World) (img : Image) :
  running (self w) = false ->
  e_image env = Some img ->
  fst (size img) <> 0 -> snd (size img) <> 0 ->
  e_which env = false ->
  let w' := fst (start env w) in
  let tr := snd (start env w) in
  last_error (self w')
  = "ffmpeg not found in PATH. Set FFMPEG_BIN to an absolute path, e.g. /usr/bin/ffmpeg"%string /\
  tr = [EGetImage; EWhich;
        EPrint "[TextureStreamer] ffmpeg not found in PATH. Set FFMPEG_BIN to an absolute path, e.g. /usr/bin/ffmpeg"%string] /\
  procs w' = procs w /\ proc (self w') = proc (self w) /\
  running (self w') = false /\ frames_sent (self w') = 0.
Proof.
  intros Hr Hi HW HH Hwhich. cbv zeta. unfold start. rewrite Hr, Hi.
  destruct (size img) as [W H]. cbn [fst snd] in HW, HH.
  rewrite (proj2 (Z.eqb_neq W 0) HW), (proj2 (Z.eqb_neq H 0) HH), Hwhich.
  cbn [orb negb andb]. change ((FFMPEG_BIN =? "ffmpeg")%string) with true. cbv iota.
  destruct (start_error_outcome w [EGetImage; EWhich]
              "ffmpeg not found in PATH. Set FFMPEG_BIN to an absolute path, e.g. /usr/bin/ffmpeg"%string Hr)
    as (He & Hf & Hrun & Hp & Hps & Ht).
  repeat split; assumption.
Qed.

(** X7. When [Popen] raises, [start] sets the handle to [None], records
    "Failed to start ffmpeg: " followed by the message of the exception,
    registers no timer, adds nothing to the process table and leaves
    [running] false; the command it tried carries the size of the image. *)
Theorem start_popen_raises (env : Env) (w : World) (img : Image) (e : string) :
  running (self w) = false ->
  e_image env = Some img ->
  fst (size img) <> 0 -> snd (size img) <> 0 ->
  e_which env = true ->
  e_popen env = Some e ->
  let w' := fst (start env w) in
  let tr := snd (start env w) in
  last_error (self w') = ("Failed to start ffmpeg: " ++ e)%string /\
  tr = [EGetImage; EWhich; EPopen (ffmpeg_cmd (fst (size img)) (snd (size img)));
        EPrint ("[TextureStreamer] Failed to start ffmpeg: " ++ e)%string] /\
  registered tr = false /\
  procs w' = procs w /\ proc (self w') = None /\
  running (self w') = false /\ frames_sent (self w') = 0.
Proof.
  intros Hr Hi HW HH Hwhich Hpop. cbv zeta. unfold start. rewrite Hr, Hi.
  destruct (size img) as [W H]. cbn [fst snd] in HW, HH |- *.
  rewrite (proj2 (Z.eqb_neq W 0) HW), (proj2 (Z.eqb_neq H 0) HH), Hwhich, Hpop.
  change ((FFMPEG_BIN =? "ffmpeg")%string) with true. cbn [orb negb andb]. cbv iota.
  rewrite and_then_fst, and_then_snd. cbn [fst snd _set_error].
  repeat split. exact Hr.
Qed.

(** X8. A [start] from the idle state ends in one of two ways.  Either the
    session runs: the status reads "Streaming", exactly one process was
    added to the table and the timer was registered.  Or it does not: the
    status reads "Error", the process table is unchanged and no timer was
    registered.  It never ends with the status "Stopped". *)
Theorem start_ends_streaming_or_error (env : Env) (w : World) :
  running (self w) = false ->
  let w' := fst (start env w) in
  let tr := snd (start env w) in
  (running (self w') = true /\ status_text (self w') = "Streaming"%string /\
   List.length (procs w') = S (List.length (procs w)) /\
   registered tr = true /\ spawned tr = true)
  \/
  (running (self w') = false /\ status_text (self w') = "Error"%string /\
   procs w' = procs w /\ registered tr = false).
Proof.
  intros Hr. cbv zeta. unfold start. rewrite Hr.
  destruct (e_image env) as [img|].
  2:{ right.
      destruct (start_error_outcome w [EGetImage]
                  ("Image not found: " ++ IMAGE_NAME)%string Hr)
        as (He & Hf & Hrun & Hp & Hps & Ht).
      unfold status_text. rewrite He, Ht. repeat split; assumption. }
  destruct (size img) as [W H].
  destruct ((W =? 0) || (H =? 0)).
  { right.
    destruct (start_error_outcome w [EGetImage]
                ("Invalid image size: " ++ str W ++ "x" ++ str H)%string Hr)
      as (He & Hf & Hrun & Hp & Hps & Ht).
    unfold status_text. rewrite He, Ht. repeat split; assumption. }
  change ((FFMPEG_BIN =? "ffmpeg")%string) with true. cbn [andb]. cbv iota.
  destruct (negb (e_which env)).
  { right.
    destruct (start_error_outcome w [EGetImage; EWhich]
                "ffmpeg not found in PATH. Set FFMPEG_BIN to an absolute path, e.g. /usr/bin/ffmpeg"%string Hr)
      as (He & Hf & Hrun & Hp & Hps & Ht).
    unfold status_text. rewrite He, Ht. repeat split; assumption. }
  destruct (e_popen env) as [e|].
  - right. rewrite and_then_fst, and_then_snd. cbn [fst snd _set_error].
    repeat split. exact Hr.
  - left. cbn [fst snd]. repeat split.
    cbn [procs with_self]. rewrite length_app. cbn [List.length]. lia.
Qed.

(** ** The counters *)

Lemma start_resets env w :
  running (self w) = false ->
  frames_sent (self (fst (start env w))) = 0 /\
  last_send_time (self (fst (start env w))) = F64.of_Z 0.
Proof.
  intros Hr. unfold start. rewrite Hr.
  destruct (e_image env) as [img|]; [|rewrite and_then_fst; split; reflexivity].
  destruct (size img) as [W H].
  destruct ((W =? 0) || (H =? 0)); [rewrite and_then_fst; split; reflexivity|].
  destruct ((FFMPEG_BIN =? "ffmpeg")%string && negb (e_which env));
    [rewrite and_then_fst; split; reflexivity|].
  destruct (e_popen env) as [e|]; [rewrite and_then_fst|]; split; reflexivity.
Qed.

Lemma stop_counters env w :
  frames_sent (self (fst (stop env w))) = frames_sent (self w) /\
  last_send_time (self (fst (stop env w))) = last_send_time (self w) /\
  last_error (self (fst (stop env w))) = last_error (self w).
Proof.
  destruct (running (self w)) eqn:Hr.
  - rewrite stop_self by assumption. repeat split.
  - rewrite stop_idle by assumption. repeat split.
Qed.

(** What one tick does to the two counters. *)
Lemma stream_counters env w :
  (frames_sent (self (fst (fst (stream env w)))) = frames_sent (self w) /\
   last_send_time (self (fst (fst (stream env w)))) = last_send_time (self w))
  \/
  (frames_sent (self (fst (fst (stream env w)))) = frames_sent (self w) + 1 /\
   last_send_time (self (fst (fst (stream env w)))) = e_now env /\
   sent (snd (fst (stream env w))) = true /\
   running (self (fst (fst (stream env w)))) = true).
Proof.
  destruct (running (self w)) eqn:Hr.
  2:{ rewrite stream_idle by assumption. left. split; reflexivity. }
  destruct (stream_shape env w Hr)
    as [(pre & msg & w0 & Hst & _ & Hs & _) | [(t & Hst & _) | (pid & img & t & _ & _ & Hst & Ht)]];
    rewrite Hst.
  - left. assert (Hr0 : running (self w0) = true) by (rewrite Hs; exact Hr).
    rewrite fail_and_stop_self by assumption. rewrite Hs. split; reflexivity.
  - left. split; reflexivity.
  - right. cbn [fst snd]. repeat split; assumption.
Qed.

(** X9. [frames_sent] moves in two ways only: a tick that wrote its frame
    and left the session running adds one, and a [start] from the idle
    state sets it to 0.  So along any run without a [start] it never goes
    down. *)
Theorem frames_sent_changes (w : World) :
  (forall ev,
      frames_sent (self (step ev w)) = frames_sent (self w)
      \/ (exists env, ev = Tick env /\
                      frames_sent (self (step ev w)) = frames_sent (self w) + 1 /\
                      sent (snd (fst (stream env w))) = true /\
                      running (self (step ev w)) = true)
      \/ (exists env, ev = Start env /\ running (self w) = false /\
                      frames_sent (self (step ev w)) = 0)) /\
  (forall evs, Forall no_start evs ->
               frames_sent (self w) <= frames_sent (self (run evs w))).
Proof.
  assert (Hstep : forall w ev,
             frames_sent (self (step ev w)) = frames_sent (self w)
             \/ (exists env, ev = Tick env /\
                             frames_sent (self (step ev w)) = frames_sent (self w) + 1 /\
                             sent (snd (fst (stream env w))) = true /\
                             running (self (step ev w)) = true)
             \/ (exists env, ev = Start env /\ running (self w) = false /\
                             frames_sent (self (step ev w)) = 0)).
  { clear w. intros w [env|env|env|pid code]; cbn [step].
    - destruct (running (self w)) eqn:Hr.
      + left. unfold start. rewrite Hr. reflexivity.
      + right. right. exists env. repeat split; try assumption.
        apply start_resets, Hr.
    - left. apply stop_counters.
    - destruct (stream_counters env w) as [[H _] | (H1 & _ & H3 & H4)].
      + left. exact H.
      + right. left. exists env. repeat split; assumption.
    - left. reflexivity. }
  split; [apply Hstep|].
  intros evs. revert w. induction evs as [|ev evs IH]; intros w Hall.
  - cbn. lia.
  - inversion Hall as [|? ? Hev Hrest]; subst.
    cbn [run fold_left]. fold (run evs (step ev w)).
    specialize (IH (step ev w) Hrest).
    destruct (Hstep w ev) as [H | [(env & _ & H & _) | (env & -> & _)]];
      [lia | lia | contradiction].
Qed.

Lemma reachable_counters P w :
  reachable P w ->
  0 <= frames_sent (self w) /\
  (frames_sent (self w) = 0 -> last_send_time (self w) = F64.of_Z 0).
Proof.
  induction 1 as [|w ev Hw [IH1 IH2] _].
  - split; [cbn; lia | reflexivity].
  - destruct ev as [env|env|env|pid code]; cbn [step].
    + destruct (running (self w)) eqn:Hr.
      * unfold start. rewrite Hr. split; assumption.
      * destruct (start_resets env w Hr) as [-> ->]. split; [lia | reflexivity].
    + destruct (stop_counters env w) as (-> & -> & _). split; assumption.
    + destruct (stream_counters env w) as [[-> ->] | (-> & _)].
      * split; assumption.
      * split; lia.
    + split; assumption.
Qed.

(** X10. In every world a run reaches, [frames_sent] is not negative, and
    as long as it is 0 (no frame went out since the last [start])
    [last_send_time] is the 0.0 that [start] put there, so that the panel
    draws its six lines of status and no "Last send" line. *)
Theorem counters_invariant (w : World) :
  reachable any_event w ->
  0 <= frames_sent (self w) /\
  (frames_sent (self w) = 0 -> last_send_time (self w) = F64.of_Z 0) /\
  (frames_sent (self w) = 0 ->
   forall env,
     hd_error (draw env (self w))
     = Some (Box [Row true [Label "Status:"; Label (status_text (self w))];
                  Label "Image: PaintTexture";
                  Label match e_image env with
                        | Some img => ("Size: " ++ str (fst (size img)) ++ " x "
                                       ++ str (snd (size img)))%string
                        | None => "Size: n/a"%string
                        end;
                  Label "FPS: 15";
                  Label "Output: udp://127.0.0.1:1234?pkt_size=1316";
                  Label "Frames sent: 0"])).
Proof.
  intros Hw. destruct (reachable_counters _ _ Hw) as [H0 Hz].
  split; [exact H0|]. split; [exact Hz|].
  intros Hf env. unfold draw. rewrite (Hz Hf), Hf.
  destruct (e_image env) as [img|]; reflexivity.
Qed.

(** X11. In every world a run reaches, the status text reads "Streaming"
    exactly when [running] is true, "Error" exactly when an error is
    recorded, and "Stopped" exactly when neither holds. *)
Theorem status_text_meaning (w : World) :
  reachable any_event w ->
  (status_text (self w) = "Streaming"%string <-> running (self w) = true) /\
  (status_text (self w) = "Error"%string <-> last_error (self w) <> EmptyString) /\
  (status_text (self w) = "Stopped"%string <->
   running (self w) = false /\ last_error (self w) = EmptyString).
Proof.
  intros Hw. apply reachable_wf in Hw. destruct Hw as [Hrun _].
  unfold status_text.
  destruct (last_error (self w)) as [|c rest] eqn:He;
    destruct (running (self w)) eqn:Hr;
    repeat split; intros; try discriminate; try reflexivity; try congruence;
    try (destruct (Hrun eq_refl) as [Habs _]; discriminate Habs);
    try (destruct H; discriminate).
Qed.

(** ** The process table *)

Lemma stop_others env w pid :
  proc (self w) <> Some pid ->
  nth_error (procs (fst (stop env w))) pid = nth_error (procs w) pid.
Proof.
  intros Hne. unfold stop. destruct (negb (running (self w))); [reflexivity|].
  cbv zeta. cbn [self with_self].
  change (proc (set_running false (self w))) with (proc (self w)).
  destruct (proc (self w)) as [pid0|]; [|reflexivity].
  cbn [fst procs with_self with_proc].
  rewrite !nth_error_update_nth_other by congruence. reflexivity.
Qed.

Lemma fail_and_stop_others env pre msg w pid :
  proc (self w) <> Some pid ->
  nth_error (procs (fst (fst (fail_and_stop env pre msg w)))) pid
  = nth_error (procs w) pid.
Proof.
  intros Hne. unfold fail_and_stop. cbn [fst]. rewrite !and_then_fst. cbn [fst].
  rewrite stop_others; [reflexivity | exact Hne].
Qed.

Lemma stream_others env w pid :
  proc (self w) <> Some pid ->
  nth_error (procs (fst (fst (stream env w)))) pid = nth_error (procs w) pid.
Proof.
  intros Hne. unfold stream.
  destruct (negb (running (self w))); [reflexivity|].
  destruct (proc_exited w); [apply fail_and_stop_others, Hne|].
  destruct (e_image env) as [img|]; [|apply fail_and_stop_others, Hne].
  destruct (negb (should_send _ _ _)); [reflexivity|].
  destruct (proc (self w)) as [pid0|] eqn:Hp; [|apply fail_and_stop_others; congruence].
  destruct (negb (has_stdin w pid0)); [apply fail_and_stop_others; congruence|].
  destruct (e_write env) as [[k e]|].
  - rewrite fail_and_stop_others by (cbn [self with_proc]; congruence).
    cbn [procs with_proc]. apply nth_error_update_nth_other. congruence.
  - cbn [fst procs with_self with_proc]. apply nth_error_update_nth_other. congruence.
Qed.

Lemma start_others env w pid p :
  nth_error (procs w) pid = Some p ->
  nth_error (procs (fst (start env w))) pid = Some p.
Proof.
  intros Hn. unfold start. destruct (running (self w)); [exact Hn|].
  destruct (e_image env) as [img|]; [|rewrite and_then_fst; exact Hn].
  destruct (size img) as [W H].
  destruct ((W =? 0) || (H =? 0)); [rewrite and_then_fst; exact Hn|].
  destruct ((FFMPEG_BIN =? "ffmpeg")%string && negb (e_which env));
    [rewrite and_then_fst; exact Hn|].
  destruct (e_popen env) as [e|]; [rewrite and_then_fst; exact Hn|].
  cbn [fst procs with_self]. rewrite nth_error_app1; [exact Hn|].
  apply nth_error_Some. rewrite Hn. discriminate.
Qed.

(** X13. [start], [stop] and a tick leave every process that the streamer
    does not hold exactly as it was: its pipe gets no bytes, and it is
    neither closed nor terminated a second time. *)
Theorem other_processes_untouched (ev : Event) (w : World) (pid : nat) (p : Process) :
  (forall pid' code, ev <> ChildExit pid' code) ->
  nth_error (procs w) pid = Some p ->
  proc (self w) <> Some pid ->
  nth_error (procs (step ev w)) pid = Some p.
Proof.
  intros Hev Hn Hne. destruct ev as [env|env|env|pid' code]; cbn [step].
  - apply start_others, Hn.
  - rewrite stop_others; assumption.
  - rewrite stream_others; assumption.
  - elim (Hev pid' code). reflexivity.
Qed.

Lemma stop_kinds env w (f : Effect -> bool) :
  (forall pid, f (EClose pid) = false) ->
  (forall pid, f (ETerminate pid) = false) ->
  (forall m, f (EPrint m) = false) ->
  existsb f (snd (stop env w)) = false.
Proof.
  intros Hc Ht Hp. unfold stop. destruct (negb (running (self w))); [reflexivity|].
  cbv zeta. destruct (proc (self (with_self (set_running false) w))) as [pid|];
    cbn [snd]; [|cbn; rewrite Hp; reflexivity].
  rewrite existsb_app. destruct (has_stdin _ pid); cbn; rewrite ?Hc, ?Ht, ?Hp; reflexivity.
Qed.

Lemma fail_and_stop_kinds env pre msg w (f : Effect -> bool) :
  (forall pid, f (EClose pid) = false) ->
  (forall pid, f (ETerminate pid) = false) ->
  (forall m, f (EPrint m) = false) ->
  existsb f (snd (fst (fail_and_stop env pre msg w))) = existsb f pre.
Proof.
  intros Hc Ht Hp. rewrite fail_and_stop_trace, existsb_app. cbn [existsb].
  rewrite Hp, (stop_kinds env _ f Hc Ht Hp). cbn. apply orb_false_r.
Qed.

Lemma stream_kinds env w (f : Effect -> bool) :
  (forall pid, f (EClose pid) = false) ->
  (forall pid, f (ETerminate pid) = false) ->
  (forall m, f (EPrint m) = false) ->
  (forall pid, f (EPoll pid) = false) ->
  f EGetImage = false -> f ETime = false -> f EReadPixels = false ->
  (forall pid b, f (EWrite pid b) = false) ->
  existsb f (snd (fst (stream env w))) = false.
Proof.
  intros Hc Ht Hp Hpoll Hg Htime Hr Hw. unfold stream.
  destruct (negb (running (self w))); [reflexivity|].
  assert (Hpre : existsb f (match proc (self w) with
                            | Some pid => [EPoll pid] | None => [] end) = false).
  { destruct (proc (self w)); cbn; rewrite ?Hpoll; reflexivity. }
  destruct (proc_exited w).
  { rewrite fail_and_stop_kinds by assumption. exact Hpre. }
  destruct (e_image env) as [img|].
  2:{ rewrite fail_and_stop_kinds, existsb_app, Hpre by assumption.
      cbn. rewrite Hg. reflexivity. }
  destruct (negb (should_send _ _ _)).
  { cbn [fst snd]. rewrite existsb_app, Hpre. cbn. rewrite Hg, Htime. reflexivity. }
  assert (Ht2 : existsb f ((match proc (self w) with
                            | Some pid => [EPoll pid] | None => [] end
                            ++ [EGetImage; ETime]) ++ [EReadPixels]) = false).
  { rewrite !existsb_app, Hpre. cbn. rewrite Hg, Htime, Hr. reflexivity. }
  destruct (proc (self w)) as [pid|].
  2:{ rewrite fail_and_stop_kinds by assumption. exact Ht2. }
  destruct (negb (has_stdin w pid)).
  { rewrite fail_and_stop_kinds by assumption. exact Ht2. }
  destruct (e_write env) as [[k e]|].
  - rewrite fail_and_stop_kinds, existsb_app, Ht2 by assumption.
    cbn. rewrite Hw. reflexivity.
  - cbn [fst snd]. rewrite existsb_app, Ht2. cbn. rewrite Hw. reflexivity.
Qed.

Lemma keeps_argv_refl l : keeps_argv l l.
Proof. intros pid p Hn. exists p. auto. Qed.

Lemma keeps_argv_trans l1 l2 l3 :
  keeps_argv l1 l2 -> keeps_argv l2 l3 -> keeps_argv l1 l3.
Proof.
  intros H12 H23 pid p Hn. destruct (H12 pid p Hn) as (p2 & Hn2 & Ha2).
  destruct (H23 pid p2 Hn2) as (p3 & Hn3 & Ha3). exists p3. split; congruence.
Qed.

Lemma keeps_argv_update (f : Process -> Process) n l :
  (forall x, argv (f x) = argv x) -> keeps_argv l (update_nth n f l).
Proof.
  intros Hf pid p Hn. destruct (Nat.eq_dec n pid) as [->|Hne].
  - exists (f p). rewrite nth_error_update_nth_same, Hn. auto.
  - exists p. rewrite nth_error_update_nth_other by assumption. auto.
Qed.

Lemma argv_terminate r x : argv (terminate r x) = argv x.
Proof. unfold terminate. destruct r, (status x); reflexivity. Qed.

Lemma keeps_argv_stop env w : keeps_argv (procs w) (procs (fst (stop env w))).
Proof.
  unfold stop. destruct (negb (running (self w))); [apply keeps_argv_refl|].
  cbv zeta. destruct (proc (self (with_self (set_running false) w))) as [pid|];
    [|apply keeps_argv_refl].
  cbn [fst procs with_self with_proc].
  eapply keeps_argv_trans; apply keeps_argv_update;
    [reflexivity | apply argv_terminate].
Qed.

Lemma keeps_argv_fail_and_stop env pre msg w :
  keeps_argv (procs w) (procs (fst (fst (fail_and_stop env pre msg w)))).
Proof.
  unfold fail_and_stop. cbn [fst]. rewrite !and_then_fst. cbn [fst].
  apply (keeps_argv_stop env (with_self (set_last_error msg) w)).
Qed.

Lemma keeps_argv_stream env w : keeps_argv (procs w) (procs (fst (fst (stream env w)))).
Proof.
  unfold stream.
  destruct (negb (running (self w))); [apply keeps_argv_refl|].
  destruct (proc_exited w); [apply keeps_argv_fail_and_stop|].
  destruct (e_image env) as [img|]; [|apply keeps_argv_fail_and_stop].
  destruct (negb (should_send _ _ _)); [apply keeps_argv_refl|].
  destruct (proc (self w)) as [pid|]; [|apply keeps_argv_fail_and_stop].
  destruct (negb (has_stdin w pid)); [apply keeps_argv_fail_and_stop|].
  destruct (e_write env) as [[k e]|].
  - eapply keeps_argv_trans; [|apply keeps_argv_fail_and_stop].
    cbn [procs with_proc]. apply keeps_argv_update. reflexivity.
  - cbn [fst procs with_self with_proc]. apply keeps_argv_update. reflexivity.
Qed.

Lemma keeps_argv_step ev w : keeps_argv (procs w) (procs (step ev w)).
Proof.
  destruct ev as [env|env|env|pid code]; cbn [step].
  - intros pid p Hn. exists p. split; [apply start_others, Hn | reflexivity].
  - apply keeps_argv_stop.
  - apply keeps_argv_stream.
  - cbn [procs with_proc]. apply keeps_argv_update.
    intros x. unfold child_exit. destruct (status x); reflexivity.
Qed.

(** X12. Only [start] spawns.  [stop] and a tick call neither [Popen] nor
    the timer registration and leave the number of processes as it is; and
    through any run every process stays in the table at its index with the
    command line it was spawned with. *)
Theorem only_start_spawns (w : World) :
  (forall env,
      spawned (snd (stop env w)) = false /\ registered (snd (stop env w)) = false /\
      List.length (procs (fst (stop env w))) = List.length (procs w)) /\
  (forall env,
      spawned (snd (fst (stream env w))) = false /\
      registered (snd (fst (stream env w))) = false /\
      List.length (procs (fst (fst (stream env w)))) = List.length (procs w)) /\
  (forall evs pid p,
      nth_error (procs w) pid = Some p ->
      exists p', nth_error (procs (run evs w)) pid = Some p' /\ argv p' = argv p).
Proof.
  split; [|split].
  - intros env. repeat split.
    + apply stop_kinds; reflexivity.
    + apply stop_kinds; reflexivity.
    + apply procs_stop.
  - intros env. repeat split.
    + apply stream_kinds; reflexivity.
    + apply stream_kinds; reflexivity.
    + apply procs_stream.
  - intros evs. revert w. induction evs as [|ev evs IH]; intros w pid p Hn.
    + exists p. auto.
    + cbn [run fold_left]. fold (run evs (step ev w)).
      destruct (keeps_argv_step ev w pid p Hn) as (p1 & Hn1 & Ha1).
      destruct (IH (step ev w) pid p1 Hn1) as (p2 & Hn2 & Ha2).
      exists p2. split; congruence.
Qed.

(** ** No pipe and no child is left behind *)

Lemma others_closed_self (f : TextureStreamer -> TextureStreamer) w :
  (forall s, proc (f s) = proc s) -> others_closed w -> others_closed (with_self f w).
Proof.
  intros Hf Hoc pid p Hn. destruct (Hoc pid p Hn) as (q & Hs & Hc).
  exists q. split; [assumption|]. cbn [self with_self]. rewrite Hf. exact Hc.
Qed.

Lemma others_closed_feed w pid0 b :
  others_closed w -> others_closed (with_proc pid0 (feed b) w).
Proof.
  intros Hoc pid p. cbn [procs with_proc self].
  destruct (Nat.eq_dec pid0 pid) as [->|Hne].
  - rewrite nth_error_update_nth_same.
    destruct (nth_error (procs w) pid) as [p0|] eqn:Hn; [|discriminate].
    cbn [option_map]. intros Hp. injection Hp as <-.
    destruct (Hoc pid p0 Hn) as (q & Hs & Hc).
    exists {| closed := closed q; data := data q ++ b |}. cbn [feed stdin].
    rewrite Hs. split; [reflexivity | exact Hc].
  - rewrite nth_error_update_nth_other by assumption. apply Hoc.
Qed.

Lemma others_closed_stop env w : others_closed w -> others_closed (fst (stop env w)).
Proof.
  intros Hoc. destruct (running (self w)) eqn:Hr.
  2:{ rewrite stop_idle by assumption. exact Hoc. }
  destruct (proc (self w)) as [pid0|] eqn:Hp.
  - intros pid p. rewrite (stop_procs env w pid0 Hr Hp).
    destruct (Nat.eq_dec pid0 pid) as [->|Hne].
    + rewrite !nth_error_update_nth_same.
      destruct (nth_error (procs w) pid) as [p0|] eqn:Hn; [|discriminate].
      cbn [option_map]. intros Hp'. injection Hp' as <-.
      destruct (Hoc pid p0 Hn) as (q & Hs & _).
      exists {| closed := true; data := data q |}.
      split; [apply teardown_entry, Hs | reflexivity].
    + rewrite !nth_error_update_nth_other by assumption. intros Hn.
      destruct (Hoc pid p Hn) as (q & Hs & Hc). exists q. split; [assumption|].
      intros _. apply Hc. congruence.
  - intros pid p. unfold stop. rewrite Hr. cbn [negb]. cbv zeta.
    cbn [self with_self].
    change (proc (set_running false (self w))) with (proc (self w)).
    rewrite Hp. cbn [fst procs with_self self]. intros Hn.
    destruct (Hoc pid p Hn) as (q & Hs & Hc). exists q. split; [assumption|].
    intros _. apply Hc. congruence.
Qed.

Lemma others_closed_fail_and_stop env pre msg w :
  others_closed w -> others_closed (fst (fst (fail_and_stop env pre msg w))).
Proof.
  intros Hoc. unfold fail_and_stop. cbn [fst]. rewrite !and_then_fst. cbn [fst].
  apply others_closed_stop. unfold _set_error. cbn [fst].
  apply others_closed_self; [reflexivity | exact Hoc].
Qed.

Lemma others_closed_stream env w : others_closed w -> others_closed (fst (fst (stream env w))).
Proof.
  intros Hoc. unfold stream.
  destruct (negb (running (self w))); [exact Hoc|].
  destruct (proc_exited w); [apply others_closed_fail_and_stop, Hoc|].
  destruct (e_image env) as [img|]; [|apply others_closed_fail_and_stop, Hoc].
  destruct (negb (should_send _ _ _)); [exact Hoc|].
  destruct (proc (self w)) as [pid|]; [|apply others_closed_fail_and_stop, Hoc].
  destruct (negb (has_stdin w pid)); [apply others_closed_fail_and_stop, Hoc|].
  destruct (e_write env) as [[k e]|].
  - apply others_closed_fail_and_stop, others_closed_feed, Hoc.
  - cbn [fst]. apply others_closed_self; [reflexivity|].
    apply others_closed_feed, Hoc.
Qed.

Lemma start_fails_procs env w :
  running (self w) = false ->
  running (self (fst (start env w))) = false ->
  procs (fst (start env w)) = procs w.
Proof.
  intros Hr. unfold start. rewrite Hr.
  destruct (e_image env) as [img|]; [|rewrite and_then_fst; reflexivity].
  destruct (size img) as [W H].
  destruct ((W =? 0) || (H =? 0)); [rewrite and_then_fst; reflexivity|].
  destruct ((FFMPEG_BIN =? "ffmpeg")%string && negb (e_which env));
    [rewrite and_then_fst; reflexivity|].
  destruct (e_popen env) as [e|]; [rewrite and_then_fst; reflexivity|].
  cbn [fst self running set_running]. discriminate.
Qed.

Lemma others_closed_start env w : wf w -> others_closed w -> others_closed (fst (start env w)).
Proof.
  intros Hwf Hoc. destruct (running (self w)) eqn:Hr.
  { unfold start. rewrite Hr. exact Hoc. }
  destruct (running (self (fst (start env w)))) eqn:Hr'.
  - destruct (start_begins env w Hr Hr') as (img & _ & ->).
    intros pid p. cbn [procs self proc].
    destruct (Nat.lt_ge_cases pid (List.length (procs w))) as [Hlt | Hge].
    + rewrite nth_error_app1 by assumption. intros Hn.
      destruct (Hoc pid p Hn) as (q & Hs & Hc). exists q. split; [assumption|].
      intros _. apply Hc. rewrite (proj2 Hwf Hr). discriminate.
    + intros Hn. assert (pid = List.length (procs w)).
      { apply Nat.le_antisymm; [|exact Hge].
        assert (Hl : (pid < List.length (procs w ++ [popen (ffmpeg_cmd (fst (size img)) (snd (size img)))]))%nat)
          by (apply nth_error_Some; rewrite Hn; discriminate).
        rewrite length_app in Hl. cbn [List.length] in Hl. lia. }
      subst pid. rewrite nth_error_snoc in Hn. injection Hn as <-.
      eexists. split; [reflexivity|]. intros Hne. elim Hne. reflexivity.
  - intros pid p. rewrite (start_fails_procs env w Hr Hr'). intros Hn.
    destruct (Hoc pid p Hn) as (q & Hs & Hc). exists q. split; [assumption|].
    intros _. apply Hc. rewrite (proj2 Hwf Hr). discriminate.
Qed.

Lemma reachable_others_closed P w : reachable P w -> others_closed w.
Proof.
  induction 1 as [|w ev Hw IH _].
  - intros pid p Hn. destruct pid; discriminate Hn.
  - destruct ev as [env|env|env|pid0 code]; cbn [step].
    + apply others_closed_start; [apply (reachable_wf _ _ Hw) | exact IH].
    + apply others_closed_stop, IH.
    + apply others_closed_stream, IH.
    + intros pid p. cbn [procs with_proc self].
      destruct (Nat.eq_dec pid0 pid) as [->|Hne].
      * rewrite nth_error_update_nth_same.
        destruct (nth_error (procs w) pid) as [p0|] eqn:Hn; [|discriminate].
        cbn [option_map]. intros Hp. injection Hp as <-.
        destruct (IH pid p0 Hn) as (q & Hs & Hc). exists q.
        unfold child_exit. destruct (status p0); auto.
      * rewrite nth_error_update_nth_other by assumption. apply IH.
Qed.

(** X14. No pipe is left open: in every world a run reaches, every
    process was spawned with a pipe, the pipe of every process the streamer
    does not hold is closed, and so at most one pipe is open at any time:
    the one of the running session. *)
Theorem no_pipe_left_open (w : World) :
  reachable any_event w ->
  others_closed w /\
  (forall pid p q,
      nth_error (procs w) pid = Some p -> stdin p = Some q -> closed q = false ->
      running (self w) = true /\ proc (self w) = Some pid).
Proof.
  intros Hw. pose proof (reachable_others_closed _ _ Hw) as Hoc.
  split; [exact Hoc|].
  intros pid p q Hn Hs Hc. destruct (Hoc pid p Hn) as (q' & Hs' & Hc').
  assert (q' = q) by congruence. subst q'.
  assert (Hp : proc (self w) = Some pid).
  { destruct (proc (self w)) as [pid0|] eqn:Hp.
    - destruct (Nat.eq_dec pid0 pid) as [->|Hne]; [reflexivity|].
      rewrite Hc' in Hc by congruence. discriminate.
    - rewrite Hc' in Hc by discriminate. discriminate. }
  split; [|exact Hp].
  apply reachable_wf in Hw. destruct Hw as [_ Hidle].
  destruct (running (self w)); [reflexivity|].
  rewrite Hidle in Hp by reflexivity. discriminate.
Qed.

Lemma terminate_signals p : status (terminate false (close_pipe p)) <> Alive.
Proof.
  unfold terminate, close_pipe. cbn [status].
  destruct (status p) eqn:Hst; cbn [status]; rewrite ?Hst; discriminate.
Qed.

Lemma others_signalled_self (f : TextureStreamer -> TextureStreamer) w :
  (forall s, proc (f s) = proc s) -> others_signalled w -> others_signalled (with_self f w).
Proof.
  intros Hf Hod pid p Hn Hne. cbn [self with_self] in Hne. rewrite Hf in Hne.
  apply (Hod pid p Hn Hne).
Qed.

Lemma others_signalled_feed w pid0 b :
  others_signalled w -> others_signalled (with_proc pid0 (feed b) w).
Proof.
  intros Hod pid p. cbn [procs with_proc self].
  destruct (Nat.eq_dec pid0 pid) as [->|Hne].
  - rewrite nth_error_update_nth_same.
    destruct (nth_error (procs w) pid) as [p0|] eqn:Hn; [|discriminate].
    cbn [option_map]. intros Hp Hheld. injection Hp as <-.
    apply (Hod pid p0 Hn Hheld).
  - rewrite nth_error_update_nth_other by assumption. apply Hod.
Qed.

Lemma others_signalled_stop env w :
  e_terminate_raises env = false -> others_signalled w -> others_signalled (fst (stop env w)).
Proof.
  intros Hq Hod. destruct (running (self w)) eqn:Hr.
  2:{ rewrite stop_idle by assumption. exact Hod. }
  destruct (proc (self w)) as [pid0|] eqn:Hp.
  - intros pid p. rewrite (stop_procs env w pid0 Hr Hp), Hq.
    destruct (Nat.eq_dec pid0 pid) as [->|Hne].
    + rewrite !nth_error_update_nth_same.
      destruct (nth_error (procs w) pid) as [p0|] eqn:Hn; [|discriminate].
      cbn [option_map]. intros Hp' _. injection Hp' as <-. apply terminate_signals.
    + rewrite !nth_error_update_nth_other by assumption. intros Hn _.
      apply (Hod pid p Hn). congruence.
  - intros pid p. unfold stop. rewrite Hr. cbn [negb]. cbv zeta.
    cbn [self with_self].
    change (proc (set_running false (self w))) with (proc (self w)).
    rewrite Hp. cbn [fst procs with_self self]. intros Hn _.
    apply (Hod pid p Hn). congruence.
Qed.

Lemma others_signalled_fail_and_stop env pre msg w :
  e_terminate_raises env = false ->
  others_signalled w -> others_signalled (fst (fst (fail_and_stop env pre msg w))).
Proof.
  intros Hq Hod. unfold fail_and_stop. cbn [fst]. rewrite !and_then_fst. cbn [fst].
  apply others_signalled_stop; [exact Hq|]. unfold _set_error. cbn [fst].
  apply others_signalled_self; [reflexivity | exact Hod].
Qed.

Lemma others_signalled_stream env w :
  e_terminate_raises env = false ->
  others_signalled w -> others_signalled (fst (fst (stream env w))).
Proof.
  intros Hq Hod. unfold stream.
  destruct (negb (running (self w))); [exact Hod|].
  destruct (proc_exited w); [apply others_signalled_fail_and_stop; assumption|].
  destruct (e_image env) as [img|]; [|apply others_signalled_fail_and_stop; assumption].
  destruct (negb (should_send _ _ _)); [exact Hod|].
  destruct (proc (self w)) as [pid|]; [|apply others_signalled_fail_and_stop; assumption].
  destruct (negb (has_stdin w pid)); [apply others_signalled_fail_and_stop; assumption|].
  destruct (e_write env) as [[k e]|].
  - apply others_signalled_fail_and_stop; [assumption|]. apply others_signalled_feed, Hod.
  - cbn [fst]. apply others_signalled_self; [reflexivity|].
    apply others_signalled_feed, Hod.
Qed.

Lemma others_signalled_start env w : wf w -> others_signalled w -> others_signalled (fst (start env w)).
Proof.
  intros Hwf Hod. destruct (running (self w)) eqn:Hr.
  { unfold start. rewrite Hr. exact Hod. }
  assert (Hnone : proc (self w) = None) by apply (proj2 Hwf Hr).
  destruct (running (self (fst (start env w)))) eqn:Hr'.
  - destruct (start_begins env w Hr Hr') as (img & _ & ->).
    intros pid p. cbn [procs self proc].
    destruct (Nat.lt_ge_cases pid (List.length (procs w))) as [Hlt | Hge].
    + rewrite nth_error_app1 by assumption. intros Hn _.
      apply (Hod pid p Hn). rewrite Hnone. discriminate.
    + intros Hn Hne. exfalso. apply Hne. f_equal.
      apply Nat.le_antisymm; [exact Hge|].
      assert (Hl : (pid < List.length (procs w ++ [popen (ffmpeg_cmd (fst (size img)) (snd (size img)))]))%nat)
        by (apply nth_error_Some; rewrite Hn; discriminate).
      rewrite length_app in Hl. cbn [List.length] in Hl. lia.
  - intros pid p. rewrite (start_fails_procs env w Hr Hr'). intros Hn _.
    apply (Hod pid p Hn). rewrite Hnone. discriminate.
Qed.

(** X15. No child is let go without a signal: in a run in which
    [terminate] never raises, every process the streamer does not hold has
    exited or has been sent SIGTERM by [stop]; so a process that runs and
    was never signalled is the one of the running session.  Whether a
    signalled child has died is not known: the code never waits for it. *)
Theorem no_child_left_unsignalled (w : World) :
  reachable quiet_teardown w ->
  others_signalled w /\
  (forall pid p,
      nth_error (procs w) pid = Some p -> status p = Alive ->
      running (self w) = true /\ proc (self w) = Some pid).
Proof.
  intros Hw.
  assert (Hod : others_signalled w).
  { induction Hw as [|w ev Hw IH Hq].
    - intros pid p Hn. destruct pid; discriminate Hn.
    - destruct ev as [env|env|env|pid0 code]; cbn [step].
      + apply others_signalled_start; [apply (reachable_wf _ _ Hw) | exact IH].
      + apply others_signalled_stop; assumption.
      + apply others_signalled_stream; assumption.
      + intros pid p. cbn [procs with_proc self].
        destruct (Nat.eq_dec pid0 pid) as [->|Hne].
        * rewrite nth_error_update_nth_same.
          destruct (nth_error (procs w) pid) as [p0|] eqn:Hn; [|discriminate].
          cbn [option_map]. intros Hp Hheld. injection Hp as <-.
          pose proof (IH pid p0 Hn Hheld) as Hna.
          unfold child_exit. destruct (status p0) eqn:Hst; cbn [status];
            rewrite ?Hst; congruence.
        * rewrite nth_error_update_nth_other by assumption. apply IH. }
  split; [exact Hod|].
  intros pid p Hn Ha.
  assert (Hp : proc (self w) = Some pid).
  { destruct (proc (self w)) as [pid0|] eqn:Hp.
    - destruct (Nat.eq_dec pid0 pid) as [->|Hne]; [reflexivity|].
      elim (Hod pid p Hn); [congruence | exact Ha].
    - elim (Hod pid p Hn); [congruence | exact Ha]. }
  split; [|exact Hp].
  apply reachable_wf in Hw. destruct Hw as [_ Hidle].
  destruct (running (self w)); [reflexivity|].
  rewrite Hidle in Hp by reflexivity. discriminate.
Qed.

(** ** The panel *)

Lemma length_substring_0 (n : nat) (s : string) :
  String.length (substring 0 n s) = Nat.min n (String.length s).
Proof.
  revert s. induction n as [|n IH]; intros [|c s]; cbn; try reflexivity.
  rewrite IH. reflexivity.
Qed.

Lemma prefix_substring_0 (n : nat) (s : string) :
  prefix (substring 0 n s) s = true.
Proof.
  revert s. induction n as [|n IH]; intros [|c s]; cbn; try reflexivity.
  destruct (Ascii.ascii_dec c c) as [_|Hne]; [apply IH | elim Hne; reflexivity].
Qed.

Lemma substring_0_all (n : nat) (s : string) :
  (String.length s <= n)%nat -> substring 0 n s = s.
Proof.
  revert s. induction n as [|n IH]; intros [|c s] Hl; cbn in *; try reflexivity.
  - lia.
  - rewrite IH by lia. reflexivity.
Qed.

Lemma draw_buttons env s :
  button_enabled "stream.start" (draw env s) = Some (negb (running s)) /\
  button_enabled "stream.stop" (draw env s) = Some (running s).
Proof.
  unfold draw, button_enabled.
  destruct (last_error s); split; reflexivity.
Qed.

(** X16. The panel enables exactly one of its two buttons: Start when the
    session is not running, Stop when it is.  In every world a run reaches
    the Stop button is enabled exactly when the status line reads
    "Streaming"; pressing an enabled Stop ends the session and the next
    drawing enables Start; pressing an enabled Start is never a silent
    no-op: it leaves the status "Streaming" or "Error". *)
Theorem panel_buttons (env : Env) (w : World) :
  reachable any_event w ->
  let ui := draw env (self w) in
  button_enabled "stream.start" ui = Some (negb (running (self w))) /\
  button_enabled "stream.stop" ui = Some (running (self w)) /\
  (button_enabled "stream.stop" ui = Some true <->
   status_text (self w) = "Streaming"%string) /\
  (button_enabled "stream.stop" ui = Some true ->
   forall env',
     let w' := fst (fst (STREAM_OT_stop_execute env' w)) in
     running (self w') = false /\
     button_enabled "stream.start" (draw env (self w')) = Some true) /\
  (button_enabled "stream.start" ui = Some true ->
   forall env',
     let w' := fst (fst (STREAM_OT_start_execute env' w)) in
     status_text (self w') = "Streaming"%string \/
     status_text (self w') = "Error"%string).
Proof.
  intros Hw. cbv zeta. destruct (draw_buttons env (self w)) as [Hstart Hstop].
  rewrite Hstart, Hstop. apply reachable_wf in Hw. destruct Hw as [Hrun _].
  repeat split.
  - intros H. injection H as Hr. unfold status_text.
    destruct (Hrun Hr) as [-> _]. rewrite Hr. reflexivity.
  - unfold status_text. destruct (last_error (self w)); [|discriminate].
    destruct (running (self w)); [reflexivity | discriminate].
  - cbn [STREAM_OT_stop_execute fst]. apply stop_not_running.
  - cbn [STREAM_OT_stop_execute fst].
    rewrite (proj1 (draw_buttons env _)), stop_not_running. reflexivity.
  - intros H env'. injection H as Hr. apply negb_true_iff in Hr.
    cbn [STREAM_OT_start_execute fst].
    destruct (running (self (fst (start env' w)))) eqn:Hr'.
    + left. destruct (start_begins env' w Hr Hr') as (img & _ & ->). reflexivity.
    + right. unfold status_text.
      assert (He : last_error (self (fst (start env' w))) <> EmptyString).
      { revert Hr'. unfold start. rewrite Hr.
        destruct (e_image env') as [img|];
          [|rewrite and_then_fst; intros _; discriminate].
        destruct (size img) as [W H].
        destruct ((W =? 0) || (H =? 0));
          [rewrite and_then_fst; intros _; discriminate|].
        destruct ((FFMPEG_BIN =? "ffmpeg")%string && negb (e_which env'));
          [rewrite and_then_fst; intros _; discriminate|].
        destruct (e_popen env') as [e|];
          [rewrite and_then_fst; intros _; discriminate|].
        cbn [fst self running set_running]. discriminate. }
      destruct (last_error (self (fst (start env' w)))); [contradiction | reflexivity].
Qed.

(** X17. The panel shows the error box exactly when an error is recorded:
    without one it has three entries, with one it has four, the second
    being a box titled "Last error:" whose text is the first 120
    characters of the message, the whole message when that is no
    longer. *)
Theorem panel_error_box (env : Env) (s : TextureStreamer) :
  (last_error s = EmptyString -> List.length (draw env s) = 3%nat) /\
  (last_error s <> EmptyString ->
   List.length (draw env s) = 4%nat /\
   exists msg,
     nth_error (draw env s) 1 = Some (Box [Label "Last error:"; Label msg]) /\
     String.length msg = Nat.min 120 (String.length (last_error s)) /\
     prefix msg (last_error s) = true /\
     ((String.length (last_error s) <= 120)%nat -> msg = last_error s)).
Proof.
  unfold draw. split.
  - intros ->. reflexivity.
  - intros He. destruct (last_error s) as [|c rest] eqn:Hl; [contradiction|].
    split; [reflexivity|].
    exists (substring 0 120 (String c rest)). split; [reflexivity|].
    split; [apply length_substring_0|].
    split; [apply prefix_substring_0 | apply substring_0_all].
Qed.

(** ** The range of the bytes *)

Lemma clamp_bounds (q : Q) : (0 <= clamp 0 255 q)%Q /\ (clamp 0 255 q <= 255)%Q.
Proof.
  unfold clamp.
  destruct (Qle_bool q 0) eqn:H0; [split; unfold Qle; cbn; lia|].
  destruct (Qle_bool 255 q) eqn:H1; [split; unfold Qle; cbn; lia|].
  split.
  - apply Qlt_le_weak, Qnot_le_lt. intros H. apply Qle_bool_iff in H. congruence.
  - apply Qlt_le_weak, Qnot_le_lt. intros H. apply Qle_bool_iff in H. congruence.
Qed.

Lemma clipped_value_bounds (x : float32) :
  (0 <= clipped_value x)%Q /\ (clipped_value x <= 255)%Q.
Proof.
  destruct x as [s|s| |s m e]; try apply clamp_bounds.
  destruct s; split; unfold Qle; cbn; lia.
Qed.

Lemma quantize_bounds (s : float32) :
  F32.valid s = true -> is_nan s = false -> 0 <= quantize s <= 255.
Proof.
  intros Hv Hn. rewrite quantize_floor by assumption.
  destruct (clipped_value_bounds (F32.mul s (F32.of_Z 255))) as [Hlo Hhi].
  apply Qfloor_resp_le in Hlo, Hhi. exact (conj Hlo Hhi).
Qed.

(** X18. A tick writes one byte for each sample, and when every sample is
    a binary32 number other than NaN, every byte it writes is between 0
    and 255. *)
Theorem written_bytes_in_range (env : Env) (w : World) (img : Image)
        (pid : nat) (bytes : list Z) :
  e_image env = Some img ->
  In (EWrite pid bytes) (snd (fst (stream env w))) ->
  List.length bytes = List.length (pixels img) /\
  (Forall (fun s => F32.valid s = true /\ is_nan s = false) (pixels img) ->
   Forall (fun b => 0 <= b <= 255) bytes).
Proof.
  intros Hi Hw. rewrite (stream_write_bytes env w img pid bytes Hi Hw).
  split; [apply length_to_u8|].
  unfold to_u8. intros Hall. apply Forall_map.
  apply (Forall_impl _ (P := fun s => F32.valid s = true /\ is_nan s = false));
    [|exact Hall].
  intros s [Hv Hn]. apply quantize_bounds; assumption.
Qed.

(** ** Samples outside the unit interval *)

(** Rounding never goes below the mantissa cut off at the format's
    exponent. *)
Lemma binary_round_aux_lower (sx : bool) (M : positive) (ex : Z) :
  let n := fexp 24 128 (Zpos (digits2_pos M) + ex) - ex in
  0 < n ->
  let r := binary_round_aux 24 128 sx (Zpos M) ex loc_Exact in
  r = S754_infinity sx \/
  (r = S754_zero sx /\ Zpos M / 2 ^ n = 0) \/
  (exists m e, r = S754_finite sx m e /\ ex + n <= e /\
               (e = ex + n -> Zpos M / 2 ^ n <= Zpos m)).
Proof.
  intros n Hn. cbv zeta. unfold binary_round_aux.
  destruct (shr_fexp_spec (Zpos M) ex loc_Exact) as [Hm1 He1]; [lia|].
  destruct (shr_fexp 24 128 (Zpos M) ex loc_Exact) as [mrs1 e1].
  cbn [fst snd] in Hm1, He1. cbn [Zdigits2] in Hm1, He1. fold n in Hm1, He1.
  rewrite Z.max_r in Hm1, He1 by lia.
  destruct (digits2_pos_bounds M) as [Hlo Hhi].
  assert (Hndef : n = fexp 24 128 (Zpos (digits2_pos M) + ex) - ex) by reflexivity.
  clearbody n.
  remember (Zpos (digits2_pos M)) as D eqn:HD.
  assert (HD0 : 0 < D) by (rewrite HD; lia).
  unfold fexp, emin in Hndef.
  assert (Hpn : 0 < 2 ^ n) by (apply Z.pow_pos_nonneg; lia).
  assert (Hb1 : 0 <= shr_m mrs1 < 2 ^ 24).
  { rewrite Hm1. split; [apply Z.div_pos; lia|].
    apply Z.div_lt_upper_bound; [assumption|].
    rewrite <- Z.pow_add_r by lia.
    assert (2 ^ D <= 2 ^ (n + 24)) by (apply Z.pow_le_mono_r; lia). lia. }
  assert (He1' : -149 <= e1) by lia.
  remember (round_nearest_even (shr_m mrs1) (loc_of_shr_record mrs1)) as mr eqn:Hmr.
  assert (Hr : mr = shr_m mrs1 \/ mr = shr_m mrs1 + 1).
  { rewrite Hmr. apply round_nearest_even_cases. }
  destruct (shr_fexp_spec mr e1 loc_Exact) as [Hm2 He2]; [lia|].
  destruct (shr_fexp 24 128 mr e1 loc_Exact) as [mrs2 e2].
  cbn [fst snd] in Hm2, He2.
  unfold fexp, emin in Hm2, He2.
  rewrite <- Hm1.
  destruct (Z.eq_dec mr (2 ^ 24)) as [Htop|Hntop].
  - rewrite Htop in Hm2, He2.
    change (Zdigits2 (2 ^ 24)) with 25 in Hm2, He2.
    replace (Z.max 0 (Z.max (25 + e1 - 24) (3 - 128 - 24) - e1)) with 1 in Hm2, He2 by lia.
    change (2 ^ 24 / 2 ^ 1) with (2 ^ 23) in Hm2.
    rewrite Hm2. change (2 ^ 23) with (Zpos 8388608).
    destruct (e2 <=? 128 - 24); [|left; reflexivity].
    right. right. exists 8388608%positive, e2. split; [reflexivity|]. lia.
  - assert (Hlt : mr < 2 ^ 24) by lia.
    destruct mr as [|q|q]; try lia.
    + cbn [Zdigits2] in Hm2. rewrite Z.max_l in Hm2 by lia.
      change (0 / 2 ^ 0) with 0 in Hm2. rewrite Hm2.
      right. left. split; [reflexivity | lia].
    + cbn [Zdigits2] in Hm2, He2.
      assert (Zpos (digits2_pos q) <= 24) by (apply digits2_pos_le; assumption).
      rewrite Z.max_l in Hm2, He2 by lia.
      change (2 ^ 0) with 1 in Hm2. rewrite Z.div_1_r in Hm2.
      rewrite Hm2.
      destruct (e2 <=? 128 - 24); [|left; reflexivity].
      right. right. exists q, e2. split; [reflexivity|]. lia.
Qed.

Lemma mul_255_shift (m : positive) (e : Z) :
  -149 <= e -> (-149 < e -> 2 ^ 23 <= Zpos m) ->
  0 < fexp 24 128 (Zpos (digits2_pos (m * 16711680)) + (e + -16)) - (e + -16).
Proof.
  intros He Hn. unfold fexp, emin.
  destruct (Z.eq_dec e (-149)) as [->|Hne]; [lia|].
  assert (46 < Zpos (digits2_pos (m * 16711680))).
  { apply digits2_pos_gt. rewrite Pos2Z.inj_mul.
    assert (2 ^ 23 <= Zpos m) by (apply Hn; lia).
    change (2 ^ 46) with (2 ^ 23 * 2 ^ 23). change (2 ^ 23) with 8388608 in *. lia. }
  lia.
Qed.

Lemma quantize_nonpositive (s : float32) :
  F32.valid s = true -> SFleb s (F32.of_Z 0) = true -> quantize s = 0.
Proof.
  intros Hv Hle. change (F32.of_Z 0) with (S754_zero false) in Hle.
  destruct s as [b|b| |b m e]; try discriminate Hle.
  - destruct b; reflexivity.
  - destruct b; [reflexivity | discriminate Hle].
  - destruct b; [|discriminate Hle].
    apply valid_finite_bounds in Hv. destruct Hv as (He & Hm & Hn).
    unfold quantize.
    change (F32.mul (S754_finite true m e) (F32.of_Z 255))
      with (binary_round_aux 24 128 true (Zpos (m * 16711680)) (e + -16) loc_Exact).
    destruct (binary_round_aux_lower true (m * 16711680) (e + -16)
                (mul_255_shift m e He Hn))
      as [-> | [[-> _] | (m' & e' & -> & _)]]; reflexivity.
Qed.

Lemma quantize_above_one (s : float32) :
  F32.valid s = true -> SFleb (F32.of_Z 1) s = true -> quantize s = 255.
Proof.
  intros Hv Hle. change (F32.of_Z 1) with (S754_finite false 8388608 (-23)) in Hle.
  destruct s as [b|b| |b m e]; try discriminate Hle.
  - destruct b; [discriminate Hle | reflexivity].
  - destruct b; [discriminate Hle|].
    assert (He23 : -23 <= e).
    { unfold SFleb, SFcompare in Hle.
      destruct (Z.compare_spec (-23) e); [lia | lia | discriminate Hle]. }
    pose proof Hv as Hv0.
    apply valid_finite_bounds in Hv. destruct Hv as (He & Hm & Hn).
    assert (Hm23 : 2 ^ 23 <= Zpos m) by (apply Hn; lia).
    rewrite quantize_floor by (assumption || reflexivity).
    destruct (mul_255_valid _ Hv0) as [Hvr _].
    change (F32.mul (S754_finite false m e) (F32.of_Z 255))
      with (binary_round_aux 24 128 false (Zpos (m * 16711680)) (e + -16) loc_Exact)
      in Hvr |- *.
    pose proof (binary_round_aux_lower false (m * 16711680) (e + -16)
                  (mul_255_shift m e He Hn)) as Hshape.
    cbv zeta in Hshape.
    destruct (digits2_pos_bounds (m * 16711680)) as [Hlo Hhi].
    remember (Zpos (digits2_pos (m * 16711680))) as D eqn:HD.
    assert (HM : 2 ^ 23 * 16711680 <= Zpos (m * 16711680) < 2 ^ 24 * 16711680).
    { rewrite Pos2Z.inj_mul. lia. }
    assert (HD1 : 46 < D).
    { rewrite HD. apply digits2_pos_gt.
      change (2 ^ 46) with 70368744177664. change (2 ^ 23) with 8388608 in HM. lia. }
    assert (HD2 : D <= 48).
    { rewrite HD. apply digits2_pos_le.
      change (2 ^ 48) with 281474976710656. change (2 ^ 24) with 16777216 in HM. lia. }
    unfold fexp, emin in Hshape.
    replace (Z.max (D + (e + -16) - 24) (3 - 128 - 24) - (e + -16)) with (D - 24)
      in Hshape by lia.
    assert (Hdiv : D = 47 -> 16711680 <= Zpos (m * 16711680) / 2 ^ (D - 24)).
    { intros ->. change (2 ^ (47 - 24)) with 8388608.
      apply Z.div_le_lower_bound; [lia|]. change (2 ^ 23) with 8388608 in HM. lia. }
    assert (Hpos : 0 < Zpos (m * 16711680) / 2 ^ (D - 24)).
    { assert (Hc : D = 47 \/ D = 48) by lia. destruct Hc as [-> | ->].
      - specialize (Hdiv eq_refl). lia.
      - change (2 ^ (48 - 24)) with 16777216.
        assert (1 <= Zpos (m * 16711680) / 16777216);
          [apply Z.div_le_lower_bound | ]; change (2 ^ 23) with 8388608 in HM; lia. }
    destruct Hshape as [-> | [[_ Hz] | (m' & e' & Hr & He' & Hm')]].
    + reflexivity.
    + lia.
    + rewrite Hr in Hvr |- *.
      apply valid_finite_bounds in Hvr. destruct Hvr as (_ & _ & Hn').
      unfold clipped_value. rewrite clamp_hi; [reflexivity|].
      apply SF2Q_above; [exact Hn'|].
      destruct (Z.eq_dec e' (-16)) as [He16|Hne16]; [right | left; lia].
      split; [exact He16|].
      assert (D = 47) by lia. specialize (Hdiv H).
      assert (e' = e + -16 + (D - 24)) by lia. specialize (Hm' H0). lia.
Qed.

(** X19. Samples outside the unit interval saturate: a binary32 sample
    that compares [<= 0.0] (zero of either sign, any negative number, minus
    infinity) becomes the byte 0, and one that compares [>= 1.0] (1.0, any
    larger number, plus infinity) becomes the byte 255. *)
Theorem quantize_saturates (s : float32) :
  F32.valid s = true ->
  (SFleb s (F32.of_Z 0) = true -> quantize s = 0) /\
  (SFleb (F32.of_Z 1) s = true -> quantize s = 255).
Proof.
  intros Hv. split.
  - apply quantize_nonpositive, Hv.
  - apply quantize_above_one, Hv.
Qed.

(** ** The command line *)

Lemma to_int_not_nil (n : Z) :
  Z.to_int n <> Decimal.Pos Decimal.Nil /\ Z.to_int n <> Decimal.Neg Decimal.Nil.
Proof.
  destruct n as [|p|p]; cbn [Z.to_int]; split; try discriminate;
    intros H; injection H as H; exact (DecimalPos.Unsigned.to_uint_nonnil p H).
Qed.

Lemma str_inj (n n' : Z) : str n = str n' -> n = n'.
Proof.
  unfold str. intros H. apply DecimalZ.to_int_inj.
  apply (f_equal NilZero.int_of_string) in H.
  rewrite !NilZero.isi in H by apply to_int_not_nil.
  injection H as H. exact H.
Qed.

Lemma int_string_uint (d : Decimal.uint) :
  int_string (NilEmpty.string_of_uint d) = true.
Proof.
  unfold int_string. induction d; cbn [NilEmpty.string_of_uint list_ascii_of_string forallb];
    try rewrite IHd; reflexivity.
Qed.

Lemma int_string_nz_uint (d : Decimal.uint) :
  int_string (NilZero.string_of_uint d) = true.
Proof.
  destruct d; try reflexivity; apply int_string_uint.
Qed.

Lemma int_string_str (n : Z) : int_string (str n) = true.
Proof.
  unfold str. destruct n as [|p|p]; cbn [Z.to_int NilZero.string_of_int].
  - reflexivity.
  - apply int_string_nz_uint.
  - unfold int_string. cbn [list_ascii_of_string forallb].
    apply andb_true_intro. split; [reflexivity | apply int_string_nz_uint].
Qed.

(** A text of digits, an x and a rest splits in one way only. *)
Lemma split_at_x (a c b d : string) :
  int_string a = true -> int_string c = true ->
  (a ++ "x" ++ b)%string = (c ++ "x" ++ d)%string -> a = c /\ b = d.
Proof.
  revert c. induction a as [|ch a IH]; intros [|ch' c] Ha Hc Heq.
  - cbn in Heq. injection Heq as Heq. auto.
  - cbn in Heq. injection Heq as Hch _. subst ch'.
    unfold int_string in Hc. cbn in Hc. discriminate Hc.
  - cbn in Heq. injection Heq as Hch _. subst ch.
    unfold int_string in Ha. cbn in Ha. discriminate Ha.
  - cbn in Heq. injection Heq as Hch Heq. subst ch'.
    unfold int_string in Ha, Hc. cbn [list_ascii_of_string forallb] in Ha, Hc.
    apply andb_prop in Ha, Hc.
    destruct (IH c (proj2 Ha) (proj2 Hc) Heq) as [-> ->]. auto.
Qed.

Lemma ffmpeg_cmd_inj (W H W' H' : Z) :
  ffmpeg_cmd W H = ffmpeg_cmd W' H' -> W = W' /\ H = H'.
Proof.
  intros Heq. apply (f_equal (fun l => nth 8 l EmptyString)) in Heq.
  cbn [ffmpeg_cmd nth] in Heq.
  apply split_at_x in Heq; try apply int_string_str.
  destruct Heq as [HW HH]. split; apply str_inj; assumption.
Qed.

(** X20. The child is told the size of the image: a [start] that begins a
    session spawns a process whose command line is [ffmpeg_cmd] of the
    width and height [start] read, and that command line fits no other
    size, since the argument after [-s] splits at its x into two numbers
    in one way only ([W] and [H] may be any integers). *)
Theorem child_knows_image_size (env : Env) (w : World) :
  running (self w) = false ->
  running (self (fst (start env w))) = true ->
  exists img p,
    e_image env = Some img /\
    current_proc (fst (start env w)) = Some p /\
    argv p = ffmpeg_cmd (fst (size img)) (snd (size img)) /\
    nth_error (argv p) 8
    = Some (str (fst (size img)) ++ "x" ++ str (snd (size img)))%string /\
    forall W H, argv p = ffmpeg_cmd W H -> size img = (W, H).
Proof.
  intros Hr Hr'. destruct (start_begins env w Hr Hr') as (img & Hi & ->).
  exists img, (popen (ffmpeg_cmd (fst (size img)) (snd (size img)))).
  unfold current_proc. cbn [self proc procs]. rewrite nth_error_snoc.
  repeat split; try assumption.
  intros W H Heq. cbn [argv popen] in Heq.
  apply ffmpeg_cmd_inj in Heq. destruct Heq as [<- <-].
  destruct (size img); reflexivity.
Qed.

End Streamer.

(** * Runs on the sample inputs

    The theorems above, applied to concrete worlds, with the cast of a NaN
    fixed to 0. *)

Example white_frame : to_u8 0 (pixels white_4x2) = repeat 255 32.
Proof. reflexivity. Qed.

Example quarter_is_truncated :
  SF2Q quarter == 1 # 4 /\ F32.mul quarter (F32.of_Z 255) = S754_finite false 16711680 (-18) /\
  quantize 0 quarter = 63.
Proof. repeat split. Qed.

Lemma reachable_started (img : Image) : reachable 0 any_event (w_started 0 img).
Proof.
  unfold w_started. apply reach_step; [apply reach_init | exact I].
Defined.

Lemma reachable_child_gone (img : Image) : reachable 0 any_event (w_child_gone 0 img).
Proof.
  unfold w_child_gone. apply reach_step; [apply reachable_started | exact I].
Defined.

Lemma reachable_restarted (img : Image) :
  reachable 0 any_event (w_restarted 0 img).
Proof.
  unfold w_restarted.
  apply reach_step; [apply reach_step; [apply reachable_started | exact I] | exact I].
Defined.

Lemma quiet_restarted (img : Image) :
  reachable 0 quiet_teardown (w_restarted 0 img).
Proof.
  unfold w_restarted, w_started.
  apply reach_step; [apply reach_step;
                     [apply reach_step; [apply reach_init | exact I] | reflexivity]
                    | exact I].
Defined.

Lemma frame_bytes_truncate_witness :
  nth_error [63; 63; 63; 255] 0
  = Some (Qfloor (clipped_value (F32.mul quarter (F32.of_Z 255)))).
Proof.
  apply (frame_bytes_truncate 0 (env_with (Some grey_1x1) 100)
           (w_started 0 grey_1x1) grey_1x1 0%nat [63; 63; 63; 255] 0%nat quarter).
  - reflexivity.
  - vm_compute. do 4 right. left. reflexivity.
  - reflexivity.
  - reflexivity.
  - reflexivity.
Defined.

(** C1 as the design notes word it fails: the sample 0.25 gives
    0.25 * 255 = 63.75, the tick writes 63, and the nearest integer is 64. *)
Lemma frame_bytes_not_rounded :
  ~ (forall env w img pid bytes i s b,
        e_image env = Some img ->
        In (EWrite pid bytes) (snd (fst (stream 0 env w))) ->
        nth_error (pixels img) i = Some s ->
        F32.valid s = true -> is_nan s = false ->
        nth_error bytes i = Some b ->
        rounded_quantization s b).
Proof.
  intros H.
  assert (Hin : In (EWrite 0 [63; 63; 63; 255])
                   (snd (fst (stream 0 (env_with (Some grey_1x1) 100)
                                     (w_started 0 grey_1x1))))).
  { vm_compute. do 4 right. left. reflexivity. }
  specialize (H (env_with (Some grey_1x1) 100) (w_started 0 grey_1x1) grey_1x1
                0%nat [63; 63; 63; 255] 0%nat quarter 63
                eq_refl Hin eq_refl eq_refl eq_refl eq_refl).
  vm_compute in H. apply H. reflexivity.
Qed.

Lemma fixed_white (env_now : Z) (ev : Env -> Event) :
  (ev = Start \/ ev = Tick) ->
  fixed_surface 4 2 (ev (env_with (Some white_4x2) env_now)).
Proof.
  intros [-> | ->]; intros img H; injection H as <-; split; reflexivity.
Defined.

Lemma frames_are_contiguous_witness :
  exists p q frames,
    current_proc (w_sent 0 white_4x2) = Some p /\ stdin p = Some q /\
    data q = List.concat frames /\
    Z.of_nat (List.length frames) = 1 /\
    Z.of_nat (List.length (data q)) = 1 * (4 * 2 * 4).
Proof.
  destruct (frames_are_contiguous 0 4 2 (w_sent 0 white_4x2))
    as (p & q & frames & Hcur & Hs & Hd & Hlen & _ & Hbytes & _).
  - lia.
  - lia.
  - unfold w_sent, w_started. apply session_step; [|apply fixed_white; auto].
    apply (session_begin 0 4 2 init_world (env_with (Some white_4x2) 100)).
    + apply reach_init.
    + reflexivity.
    + apply (fixed_white 100 Start). auto.
    + reflexivity.
  - reflexivity.
  - exists p, q, frames. repeat split; assumption.
Defined.

Lemma tick_sends_iff_should_send_witness :
  sent (snd (fst (stream 0 (env_with (Some grey_1x1) 100) (w_started 0 grey_1x1))))
  = (is_dirty grey_1x1
     || F64.gtb (F64.sub (F64.of_Z 100) (last_send_time (self (w_started 0 grey_1x1))))
                KEEPALIVE_SECONDS).
Proof.
  exact (proj1 (tick_sends_iff_should_send 0 (env_with (Some grey_1x1) 100)
                  (w_started 0 grey_1x1) (popen (ffmpeg_cmd 1 1)) grey_1x1
                  (reachable_started grey_1x1) eq_refl eq_refl eq_refl eq_refl)).
Defined.

Lemma no_write_to_exited_process_witness :
  (last_error (self (fst (fst (stream 0 (env_with (Some white_4x2) 100)
                                      (w_child_gone 0 white_4x2)))))
   = "ffmpeg exited unexpectedly."%string /\
   sent (snd (fst (stream 0 (env_with (Some white_4x2) 100)
                          (w_child_gone 0 white_4x2)))) = false) /\
  exists rest p',
    snd (fst (stream_child_exits 0 1 (env_with (Some white_4x2) 100)
                                 (w_started 0 white_4x2)))
    = [EPoll 0; EGetImage; ETime; EReadPixels;
       EWrite 0 (to_u8 0 (pixels white_4x2))] ++ rest /\
    nth_error (procs (fst (fst (stream_child_exits 0 1 (env_with (Some white_4x2) 100)
                                                   (w_started 0 white_4x2))))) 0
    = Some p' /\
    status p' = Exited 1.
Proof.
  split.
  - destruct (proj1 (proj2 (no_write_to_exited_process 0 (env_with (Some white_4x2) 100)
                              (w_child_gone 0 white_4x2)))
                0%nat (child_exit 1 (popen (ffmpeg_cmd 4 2))) 1
                eq_refl eq_refl eq_refl eq_refl)
      as (He & Hs & _).
    split; assumption.
  - destruct (proj2 (proj2 (no_write_to_exited_process 0 (env_with (Some white_4x2) 100)
                              (w_started 0 white_4x2)))
                1 (popen (ffmpeg_cmd 4 2)) white_4x2
                (reachable_started white_4x2) eq_refl eq_refl eq_refl eq_refl eq_refl)
      as (pid & rest & p' & Hp & Ht & Hn & Hst & _).
    injection Hp as <-.
    exists rest, p'. split; [exact Ht|]. split; [exact Hn | exact Hst].
Defined.

(** C4, read as a check at the moment of the write, fails: in a tick in
    which the child exits after the poll, the frame is written to the pipe
    of the exited child. *)
Lemma write_to_exited_child :
  ~ (forall code env w p,
        reachable 0 any_event w -> running (self w) = true ->
        current_proc w = Some p -> status p = Alive ->
        sent (snd (fst (stream_child_exits 0 code env w))) = false).
Proof.
  intros H.
  pose proof (H 1 (env_with (Some white_4x2) 100) (w_started 0 white_4x2)
                (popen (ffmpeg_cmd 4 2))
                (reachable_started white_4x2) eq_refl eq_refl eq_refl) as Hs.
  vm_compute in Hs. discriminate Hs.
Qed.

Lemma start_rejects_bad_surface_witness :
  status_text (self (fst (start (env_with (Some zero_width) 100) init_world)))
  = "Error"%string /\
  spawned (snd (start (env_with (Some zero_width) 100) init_world)) = false.
Proof.
  destruct (start_rejects_bad_surface (env_with (Some zero_width) 100) init_world)
    as (_ & Hst & _ & Hsp & _).
  - reflexivity.
  - right. exists zero_width. split; [reflexivity | left; reflexivity].
  - split; assumption.
Defined.

Lemma start_stop_idempotent_witness :
  status_text (self (fst (stop (env_with None 0) (w_started 0 white_4x2))))
  = "Stopped"%string /\
  start (env_with None 0) (w_started 0 white_4x2) = (w_started 0 white_4x2, []).
Proof.
  destruct (start_stop_idempotent 0) as (Hstart & _ & Htwice & _).
  split.
  - apply (Htwice (env_with None 0) (env_with None 0) (w_started 0 white_4x2)).
    reflexivity.
  - apply Hstart. reflexivity.
Defined.

Lemma error_implies_stopped_witness :
  last_error (self (w_rejected 0)) <> EmptyString /\
  running (self (w_rejected 0)) = false.
Proof.
  assert (He : last_error (self (w_rejected 0)) <> EmptyString)
    by (vm_compute; discriminate).
  split; [exact He|].
  apply (error_implies_stopped 0 (w_rejected 0)); [|exact He].
  unfold w_rejected. apply reach_step; [apply reach_init | exact I].
Defined.

(** C8 as the design notes word it fails: after a [start], the child may
    exit by itself, and [running] is still true. *)
Lemma running_with_exited_child :
  ~ (forall w, reachable 0 any_event w -> running (self w) = true ->
               exists p, current_proc w = Some p /\ status p = Alive).
Proof.
  intros H.
  destruct (H (w_child_gone 0 white_4x2) (reachable_child_gone white_4x2) eq_refl)
    as (p & Hp & Ha).
  vm_compute in Hp. injection Hp as <-. discriminate Ha.
Qed.

Lemma running_handle_state_witness :
  running (self (fst (fst (stream 0 (env_with (Some white_4x2) 100)
                                  (w_child_gone 0 white_4x2))))) = false /\
  sent (snd (fst (stream 0 (env_with (Some white_4x2) 100)
                         (w_child_gone 0 white_4x2)))) = false.
Proof.
  destruct (proj2 (proj2 (proj2 (running_handle_state 0 (w_child_gone 0 white_4x2)
                                   (reachable_child_gone white_4x2))))
              (env_with (Some white_4x2) 100)
              (child_exit 1 (popen (ffmpeg_cmd 4 2))))
    as (Hr & _ & Hs).
  - reflexivity.
  - reflexivity.
  - discriminate.
  - split; assumption.
Defined.

Lemma first_tick_sends_witness :
  frames_sent (self (fst (fst (stream 0 (env_with (Some grey_1x1) 100)
                                      (fst (start (env_with (Some grey_1x1) 100)
                                                  init_world)))))) = 1.
Proof.
  destruct (first_tick_sends 0 (env_with (Some grey_1x1) 100)
              (env_with (Some grey_1x1) 100) init_world grey_1x1)
    as (_ & _ & _ & Hok).
  - apply reach_init.
  - reflexivity.
  - reflexivity.
  - reflexivity.
  - reflexivity.
  - apply Hok. reflexivity.
Defined.

Lemma handle_iff_running_witness :
  proc (self (fst (start (env_with (Some white_4x2) 100) init_world))) = Some 0%nat.
Proof.
  apply (proj1 (proj2 (handle_iff_running 0 init_world (reach_init 0 any_event)))
           (env_with (Some white_4x2) 100)); reflexivity.
Defined.

(** ** More runs on the sample inputs *)

Lemma tick_reschedules_iff_running_witness :
  snd (stream 0 (env_with (Some white_4x2) 100) (w_child_gone 0 white_4x2)) = None.
Proof.
  apply (proj2 (proj1 (tick_reschedules_iff_running 0 (env_with (Some white_4x2) 100)
                         (w_child_gone 0 white_4x2)))).
  reflexivity.
Defined.

Lemma tick_stops_only_with_error_witness :
  status_text (self (fst (fst (stream 0 (env_with (Some white_4x2) 100)
                                      (w_child_gone 0 white_4x2)))))
  = "Error"%string.
Proof.
  apply (tick_stops_only_with_error 0 (env_with (Some white_4x2) 100)
           (w_child_gone 0 white_4x2)); reflexivity.
Defined.

Lemma tick_image_missing_witness :
  last_error (self (fst (fst (stream 0 (env_with None 100) (w_started 0 white_4x2)))))
  = "Image missing: PaintTexture"%string.
Proof.
  apply (tick_image_missing 0 (env_with None 100) (w_started 0 white_4x2)
           (popen (ffmpeg_cmd 4 2)));
    [apply reachable_started | reflexivity | reflexivity | reflexivity | reflexivity].
Defined.

Lemma tick_write_fails_witness :
  frames_sent
    (self (fst (fst (stream 0 {| e_image := Some white_4x2; e_which := true;
                                 e_popen := None; e_now := F64.of_Z 100;
                                 e_write := Some (5%nat, "Broken pipe"%string);
                                 e_terminate_raises := false |}
                            (w_started 0 white_4x2))))) = 0.
Proof.
  destruct (tick_write_fails 0 {| e_image := Some white_4x2; e_which := true;
                                  e_popen := None; e_now := F64.of_Z 100;
                                  e_write := Some (5%nat, "Broken pipe"%string);
                                  e_terminate_raises := false |}
              (w_started 0 white_4x2) (popen (ffmpeg_cmd 4 2)) white_4x2
              5%nat "Broken pipe"%string)
    as (_ & _ & _ & Hf & _);
    [apply reachable_started | reflexivity | reflexivity | reflexivity
    | reflexivity | reflexivity | reflexivity | exact Hf].
Defined.

Lemma stop_tears_down_witness :
  snd (stop (env_with None 0) (w_started 0 white_4x2))
  = [EClose 0; ETerminate 0; EPrint "Streaming stopped"%string] /\
  exists p',
    nth_error (procs (fst (stop (env_with None 0) (w_started 0 white_4x2)))) 0
    = Some p' /\
    status p' = Terminated /\ poll p' = None.
Proof.
  destruct (stop_tears_down (env_with None 0) (w_started 0 white_4x2) 0%nat
              (popen (ffmpeg_cmd 4 2)) {| closed := false; data := [] |}
              eq_refl eq_refl eq_refl eq_refl)
    as (_ & Ht & p' & Hn & _ & Hsig & _ & _ & Hpoll).
  split; [exact Ht|].
  exists p'. split; [exact Hn|]. split; [|exact Hpoll].
  apply Hsig; reflexivity.
Defined.

Lemma start_without_ffmpeg_witness :
  spawned (snd (start {| e_image := Some white_4x2; e_which := false;
                         e_popen := None; e_now := F64.of_Z 100;
                         e_write := None; e_terminate_raises := false |}
                      init_world)) = false /\
  running (self (fst (start {| e_image := Some white_4x2; e_which := false;
                               e_popen := None; e_now := F64.of_Z 100;
                               e_write := None; e_terminate_raises := false |}
                            init_world))) = false.
Proof.
  destruct (start_without_ffmpeg
              {| e_image := Some white_4x2; e_which := false;
                 e_popen := None; e_now := F64.of_Z 100;
                 e_write := None; e_terminate_raises := false |}
              init_world white_4x2)
    as (_ & Ht & _ & _ & Hr & _);
    [reflexivity | reflexivity | discriminate | discriminate | reflexivity |].
  split; [rewrite Ht; reflexivity | exact Hr].
Defined.

Lemma start_popen_raises_witness :
  proc (self (fst (start {| e_image := Some white_4x2; e_which := true;
                            e_popen := Some "No such file"%string;
                            e_now := F64.of_Z 100;
                            e_write := None; e_terminate_raises := false |}
                         init_world))) = None.
Proof.
  apply (start_popen_raises
           {| e_image := Some white_4x2; e_which := true;
              e_popen := Some "No such file"%string; e_now := F64.of_Z 100;
              e_write := None; e_terminate_raises := false |}
           init_world white_4x2 "No such file"%string);
    [reflexivity | reflexivity | discriminate | discriminate | reflexivity | reflexivity].
Defined.

Lemma start_ends_streaming_or_error_witness :
  status_text (self (fst (start (env_with None 100) init_world))) = "Error"%string.
Proof.
  destruct (start_ends_streaming_or_error (env_with None 100) init_world eq_refl)
    as [(Hr & _) | (_ & Hs & _)]; [discriminate Hr | exact Hs].
Defined.

Lemma frames_sent_changes_witness :
  frames_sent (self (w_started 0 white_4x2))
  <= frames_sent (self (run 0 [Tick (env_with (Some white_4x2) 100)]
                            (w_started 0 white_4x2))).
Proof.
  apply (proj2 (frames_sent_changes 0 (w_started 0 white_4x2))).
  constructor; [exact I | constructor].
Defined.

Lemma counters_invariant_witness :
  last_send_time (self (w_started 0 white_4x2)) = F64.of_Z 0.
Proof.
  apply (proj1 (proj2 (counters_invariant 0 (fun _ => "0.00"%string)
                         (w_started 0 white_4x2) (reachable_started white_4x2)))).
  reflexivity.
Defined.

Lemma status_text_meaning_witness :
  status_text (self (w_started 0 white_4x2)) = "Streaming"%string.
Proof.
  apply (proj1 (status_text_meaning 0 (w_started 0 white_4x2)
                  (reachable_started white_4x2))).
  reflexivity.
Defined.

Lemma only_start_spawns_witness :
  exists p',
    nth_error (procs (run 0 [Stop (env_with None 0)] (w_started 0 white_4x2))) 0
    = Some p' /\ argv p' = ffmpeg_cmd 4 2.
Proof.
  apply (proj2 (proj2 (only_start_spawns 0 (w_started 0 white_4x2)))
           [Stop (env_with None 0)] 0%nat (popen (ffmpeg_cmd 4 2))).
  reflexivity.
Defined.

Lemma other_processes_untouched_witness :
  nth_error (procs (step 0 (Start (env_with (Some white_4x2) 100))
                         (step 0 (Stop (env_with None 0)) (w_started 0 white_4x2))))
            0
  = Some (terminate false (close_pipe (popen (ffmpeg_cmd 4 2)))).
Proof.
  apply (other_processes_untouched 0 (Start (env_with (Some white_4x2) 100))
           (step 0 (Stop (env_with None 0)) (w_started 0 white_4x2)) 0%nat).
  - intros pid' code H. discriminate H.
  - reflexivity.
  - discriminate.
Defined.

Lemma no_pipe_left_open_witness :
  proc (self (w_restarted 0 white_4x2)) = Some 1%nat /\
  exists p q,
    nth_error (procs (w_restarted 0 white_4x2)) 0 = Some p /\
    stdin p = Some q /\ closed q = true.
Proof.
  split; [reflexivity|].
  destruct (proj1 (no_pipe_left_open 0 (w_restarted 0 white_4x2)
                     (reachable_restarted white_4x2))
              0%nat (terminate false (close_pipe (popen (ffmpeg_cmd 4 2)))) eq_refl)
    as (q & Hs & Hc).
  exists (terminate false (close_pipe (popen (ffmpeg_cmd 4 2)))), q.
  split; [reflexivity|]. split; [exact Hs|].
  apply Hc. discriminate.
Defined.

Lemma no_child_left_unsignalled_witness :
  proc (self (w_restarted 0 white_4x2)) = Some 1%nat /\
  exists p,
    nth_error (procs (w_restarted 0 white_4x2)) 0 = Some p /\
    status p <> Alive /\ poll p = None.
Proof.
  split; [reflexivity|].
  exists (terminate false (close_pipe (popen (ffmpeg_cmd 4 2)))).
  split; [reflexivity|]. split; [|reflexivity].
  apply (proj1 (no_child_left_unsignalled 0 (w_restarted 0 white_4x2)
                  (quiet_restarted white_4x2))
           0%nat (terminate false (close_pipe (popen (ffmpeg_cmd 4 2)))) eq_refl).
  discriminate.
Defined.

Lemma panel_buttons_witness :
  button_enabled "stream.stop"
    (draw (fun _ => "0.00"%string) (env_with (Some white_4x2) 100)
          (self (w_started 0 white_4x2)))
  = Some true.
Proof.
  apply (proj1 (proj2 (panel_buttons 0 (fun _ => "0.00"%string)
                         (env_with (Some white_4x2) 100)
                         (w_started 0 white_4x2) (reachable_started white_4x2)))).
Defined.

Lemma panel_error_box_witness :
  List.length (draw (fun _ => "0.00"%string) (env_with None 100) (self (w_rejected 0)))
  = 4%nat.
Proof.
  apply (proj2 (panel_error_box (fun _ => "0.00"%string) (env_with None 100)
                  (self (w_rejected 0)))).
  discriminate.
Defined.

Lemma written_bytes_in_range_witness :
  Forall (fun b => 0 <= b <= 255) [63; 63; 63; 255].
Proof.
  apply (proj2 (written_bytes_in_range 0 (env_with (Some grey_1x1) 100)
                  (w_started 0 grey_1x1) grey_1x1 0%nat [63; 63; 63; 255]
                  eq_refl
                  (or_intror (or_intror (or_intror (or_intror (or_introl eq_refl))))))).
  repeat constructor.
Defined.

Lemma quantize_saturates_witness :
  quantize 0 (F32.of_Z 2) = 255 /\ quantize 0 (F32.of_Z (-3)) = 0.
Proof.
  split.
  - apply (proj2 (quantize_saturates 0 (F32.of_Z 2) eq_refl)). reflexivity.
  - apply (proj1 (quantize_saturates 0 (F32.of_Z (-3)) eq_refl)). reflexivity.
Defined.

Lemma child_knows_image_size_witness :
  exists img p,
    e_image (env_with (Some white_4x2) 100) = Some img /\
    current_proc (fst (start (env_with (Some white_4x2) 100) init_world)) = Some p /\
    nth_error (argv p) 8 = Some "4x2"%string.
Proof.
  destruct (child_knows_image_size (env_with (Some white_4x2) 100) init_world
              eq_refl eq_refl)
    as (img & p & Hi & Hc & Ha & Hn & _).
  exists img, p. repeat split; try assumption.
  rewrite Hn. injection Hi as <-. reflexivity.
Defined.
